(** * Verification of the video tracker's annotation pipeline

    Shallow embedding of [video_tracker.py] (class [VideoTracker] and
    [main]) and the properties its specification states about it.

    Conventions of the embedding:
    - Python [int] and numpy integers are [Z]; numpy/OpenCV floats are the
      rationals they denote ([Q]), with [int(x)] as truncation toward zero;
    - a [dict] whose iteration order is observable ([target_classes],
      [detection_stats]) is an association list in insertion order; the
      [track_history] dict, which is only ever indexed, is a [gmap];
    - an [sv.Detections] object (parallel arrays [xyxy], [class_id],
      [confidence], [tracker_id] of one length) is the list of its rows;
    - frame buffers are numpy arrays, mutable and passed by reference: they
      live in a heap, [frame.copy()] allocates, the [cv2] drawing calls
      update the buffer they are given in place;
    - [print] appends a message to the console log; a raised exception is an
      outcome of its own that unwinds the callers. *)

From Stdlib Require Import ZArith QArith String Ascii List Lia.
From stdpp Require Import gmap strings list.

Local Open Scope string_scope.
Local Open Scope list_scope.
Local Open Scope Z_scope.

(** ** Python dictionaries kept in insertion order *)

Module Dict.

Fixpoint get {K V} `{EqDecision K} (d : list (K * V)) (k : K) : option V :=
  match d with
  | [] => None
  | (k', v) :: d' => if decide (k' = k) then Some v else get d' k
  end.

Definition keys {K V} (d : list (K * V)) : list K := map fst d.

Definition values {K V} (d : list (K * V)) : list V := map snd d.

(** [d[k] = f(d[k])] for a key that is present; Python raises [KeyError]
    on a missing key, here the dictionary is returned as it is. *)
Fixpoint update {K V} `{EqDecision K} (f : V -> V) (k : K)
    (d : list (K * V)) : list (K * V) :=
  match d with
  | [] => []
  | (k', v) :: d' =>
      if decide (k' = k) then (k', f v) :: d' else (k', v) :: update f k d'
  end.

End Dict.

(** ** The class catalog ([VideoTracker.__init__]) *)

Definition Color : Type := Z * Z * Z.

Definition target_classes : list (Z * string) :=
  [ (0, "person"); (2, "car"); (3, "motorcycle"); (5, "bus"); (7, "truck") ].

Definition colors : list (string * Color) :=
  [ ("person", (0, 255, 0)); ("car", (255, 0, 0));
    ("motorcycle", (0, 0, 255)); ("bus", (255, 255, 0));
    ("truck", (255, 0, 255)) ].

(** ** Detections *)

Record Detection := mkDetection {
  xyxy : Q * Q * Q * Q;
  class_id : Z;
  confidence : Q
}.

(** A row of the [sv.Detections] the tracker returns: the detection and the
    identity the tracker gave it. *)
Record TrackedDetection := mkTracked {
  detection :> Detection;
  tracker_id : Z
}.

(** ** Detection filter ([process_video], the mask and its application) *)

(** [np.isin(element, test_elements)] *)
Definition np_isin (element test_elements : list Z) : list bool :=
  map (fun x => bool_decide (x ∈ test_elements)) element.

(** [detections[mask]] for a boolean mask *)
Fixpoint mask_index {A} (rows : list A) (mask : list bool) : list A :=
  match rows, mask with
  | r :: rows', b :: mask' =>
      if b then r :: mask_index rows' mask' else mask_index rows' mask'
  | _, _ => []
  end.

Definition filter_target_classes (detections : list Detection) : list Detection :=
  let mask := np_isin (map class_id detections) (Dict.keys target_classes) in
  mask_index detections mask.

(** ** Trajectory store ([draw_annotations], the history update) *)

Definition Point : Type := Z * Z.

(** [l[-n:]] for a positive [n] *)
Definition slice_last {A} (n : nat) (l : list A) : list A :=
  drop (length l - n) l.

Definition record (track_history : gmap Z (list Point)) (track_id : Z)
    (center : Point) : gmap Z (list Point) :=
  let th1 :=
    match track_history !! track_id with
    | None => <[track_id := []]> track_history
    | Some _ => track_history
    end in
  let th2 := alter (fun l => l ++ [center]) track_id th1 in
  match th2 !! track_id with
  | Some l =>
      if (30 <? length l)%nat
      then <[track_id := slice_last 30 l]> th2
      else th2
  | None => th2
  end.

(** What [record] leaves of a trajectory it has appended to. *)
Definition trim (l : list Point) : list Point :=
  if (30 <? length l)%nat then slice_last 30 l else l.

(** A run of [record] calls on one track id. *)
Definition record_all (track_history : gmap Z (list Point)) (track_id : Z)
    (centers : list Point) : gmap Z (list Point) :=
  foldl (fun th c => record th track_id c) track_history centers.

(** ** Python built-ins used by the tracker *)

(** [int(x)] on a float: truncation toward zero. *)
Definition int (x : Q) : Z := Z.quot (Qnum x) (Z.pos (Qden x)).

(** [s.replace(old, new)] for a non-empty [old]: every occurrence of [old],
    found left to right without overlap, becomes [new].  [skip] counts the
    characters of a matched occurrence still to be passed over. *)
Fixpoint replace_from (old new : string) (skip : nat) (s : string) : string :=
  match s with
  | EmptyString => EmptyString
  | String c s' =>
      match skip with
      | S k => replace_from old new k s'
      | O =>
          if String.prefix old s
          then String.append new (replace_from old new (String.length old - 1) s')
          else String c (replace_from old new 0 s')
      end
  end.

Definition str_replace (s old new : string) : string := replace_from old new 0 s.

(** [old in s] on strings: [old] occurs somewhere in [s]. *)
Fixpoint contains (old s : string) : bool :=
  String.prefix old s
  || match s with
     | EmptyString => false
     | String _ s' => contains old s'
     end.

(** The output name [process_video] falls back on when [output_path is None]. *)
Definition default_output_path (video_path : string) : string :=
  str_replace video_path ".mp4" "_tracked.mp4".

(** [s.split(sep)] for a one-character separator. *)
Fixpoint str_split (sep : ascii) (s : string) : list string :=
  match s with
  | EmptyString => [EmptyString]
  | String c s' =>
      if Ascii.eqb c sep then EmptyString :: str_split sep s'
      else
        match str_split sep s' with
        | [] => [String c EmptyString]
        | word :: words => String c word :: words
        end
  end.

(** [s.rfind(c)]: the index of the last [c] in [s], if there is one. *)
Fixpoint str_rfind (c : ascii) (s : string) : option nat :=
  match s with
  | EmptyString => None
  | String a s' =>
      match str_rfind c s' with
      | Some i => Some (S i)
      | None => if Ascii.eqb a c then Some 0%nat else None
      end
  end.

(** [Path(p).name] for a POSIX path: the last component of [p], empty
    components and [.] components left out. *)
Definition path_name (p : string) : string :=
  List.last
    (List.filter
       (fun part => negb (String.eqb part "" || String.eqb part "."))
       (str_split "/" p))
    "".

(** [Path(p).stem]: the name without its last suffix; a name has a suffix
    when its last dot is neither its first nor its last character. *)
Definition path_stem (p : string) : string :=
  let name := path_name p in
  match str_rfind "." name with
  | Some i =>
      if (0 <? i)%nat && (i <? String.length name - 1)%nat
      then String.substring 0 i name
      else name
  | None => name
  end.

(** [str(output_dir / f"{Path(video_path).stem}_tracked.mp4")] of [main],
    for an [output_dir] that is a plain relative directory name. *)
Definition tracked_output_path (output_dir video_path : string) : string :=
  String.append output_dir
    (String.append "/" (String.append (path_stem video_path) "_tracked.mp4")).

(** ** Outcomes, console messages and video sinks *)

Inductive Outcome (A : Type) :=
| Returned (a : A)
| Raised.
Arguments Returned {A} a.
Arguments Raised {A}.

(** One constructor per [print] call of [process_video] and of the loop of
    [main], with the values the message interpolates. *)
Inductive Msg :=
| MsgNotFound (video_path : string)
| MsgStart (video_path : string)
| MsgCannotOpen (video_path : string)
| MsgInfo (width height fps total_frames : Z)
| MsgDone (output_path : string)
| MsgStatsHeader
| MsgStat (class_name : string) (count : Z)
| MsgFailed (video_path : string)
| MsgMissing (video_path : string)
| MsgAllDone.

(** The video a message is about, for the messages that report a failure. *)
Definition failure_of (m : Msg) : option string :=
  match m with
  | MsgNotFound p | MsgCannotOpen p | MsgFailed p | MsgMissing p => Some p
  | _ => None
  end.

(** What [cv2.VideoCapture(path)] finds at an existing path. *)
Record VideoFile (Image : Type) := mkVideoFile {
  can_open : bool;
  prop_fps : Q;
  prop_width : Q;
  prop_height : Q;
  prop_frame_count : Q;
  frames : list Image
}.
Arguments mkVideoFile {Image}.
Arguments can_open {Image}.
Arguments prop_fps {Image}.
Arguments prop_width {Image}.
Arguments prop_height {Image}.
Arguments prop_frame_count {Image}.
Arguments frames {Image}.

(** A [cv2.VideoWriter]: the parameters it was constructed with, whether the
    file could be opened, and the frames written so far.  [write] on a
    writer that is not open does nothing and raises nothing. *)
Record VideoWriter (Image : Type) := mkVideoWriter {
  writer_path : string;
  writer_fps : Z;
  writer_size : Z * Z;
  writer_opened : bool;
  writer_frames : list Image
}.
Arguments mkVideoWriter {Image}.
Arguments writer_path {Image}.
Arguments writer_fps {Image}.
Arguments writer_size {Image}.
Arguments writer_opened {Image}.
Arguments writer_frames {Image}.

Definition write {Image} (out : VideoWriter Image) (frame : option Image)
    : VideoWriter Image :=
  match frame with
  | Some img =>
      if writer_opened out
      then mkVideoWriter (writer_path out) (writer_fps out) (writer_size out)
             true (writer_frames out ++ [img])
      else out
  | None => out
  end.

(** ** Invariant of the trajectory store *)

(** Every stored trajectory has at least one point and at most 30. *)
Definition trails_bounded (track_history : gmap Z (list Point)) : Prop :=
  forall track_id trajectory,
    track_history !! track_id = Some trajectory ->
    (1 <= length trajectory <= 30)%nat.

(** ** The launcher script ([run_tracker.py]) *)

Module RunTracker.

(** How a [subprocess.run(cmd, check=True)] ends: normally, with the
    captured standard output, or on one of the two exceptions the script
    names. *)
Inductive Proc :=
| Completed (stdout : string)
| CalledProcessError
| FileNotFoundError.

(** What the script finds around it: the outcome of each command it may
    launch, [sys.executable], and which paths exist. *)
Record Env := mkEnv {
  conda_env_list : Proc;
  conda_create : Proc;
  pip_install : Proc;
  video_tracker : list string -> Proc;
  executable : string;
  path_exists : string -> bool
}.

(** One constructor per [print] call of the script. *)
Inductive Line :=
| EnvFound | EnvNotFound | CondaUnavailable
| CreatingEnv | EnvCreated | EnvCreateFailed
| Installing | Installed | InstallFailed
| VideoFound (video_file : string) | VideoMissing (video_file : string)
| HelpPlace | HelpName (video_file : string) | HelpOr | HelpCommand
| Launching | TrackingDone | TrackingFailed
| Banner | Rule | TryCreate | ContinueCurrent | InstallManually
| OutputLocation | OutputSuffix.

(** The console, and the commands launched so far. *)
Record State := mkState {
  lines : list Line;
  commands : list (list string)
}.

Definition say (st : State) (l : list Line) : State :=
  mkState (lines st ++ l) (commands st).

Definition launch (st : State) (cmd : list string) : State :=
  mkState (lines st) (commands st ++ [cmd]).

Definition check_conda_env (env : Env) (st : State) : bool * State :=
  let st := launch st ["conda"; "env"; "list"] in
  match conda_env_list env with
  | Completed stdout =>
      if contains "supervisionTest" stdout
      then (true, say st [EnvFound])
      else (false, say st [EnvNotFound])
  | CalledProcessError | FileNotFoundError => (false, say st [CondaUnavailable])
  end.

Definition create_conda_env (env : Env) (st : State) : bool * State :=
  let st := say st [CreatingEnv] in
  let st := launch st ["conda"; "create"; "-n"; "supervisionTest";
                       "python=3.9"; "-y"] in
  match conda_create env with
  | Completed _ => (true, say st [EnvCreated])
  | CalledProcessError | FileNotFoundError => (false, say st [EnvCreateFailed])
  end.

Definition install_dependencies (env : Env) (st : State)
    : Outcome bool * State :=
  let st := say st [Installing] in
  let st := launch st [executable env; "-m"; "pip"; "install"; "-r";
                       "requirements.txt"] in
  match pip_install env with
  | Completed _ => (Returned true, say st [Installed])
  | CalledProcessError => (Returned false, say st [InstallFailed])
  | FileNotFoundError => (Raised, st)
  end.

Definition video_files : list string := ["video1.mp4"; "video2.mp4"].

(** [check_video_files]: the list of the files found, or [None] for the
    [False] it returns when it finds none. *)
Definition check_video_files (env : Env) (st : State)
    : option (list string) * State :=
  let '(existing_files, st) :=
    foldl (fun '(existing_files, st) video_file =>
             if path_exists env video_file
             then (existing_files ++ [video_file],
                   say st [VideoFound video_file])
             else (existing_files, say st [VideoMissing video_file]))
          ([], st) video_files in
  match existing_files with
  | [] => (None, say st [HelpPlace; HelpName "video1.mp4";
                         HelpName "video2.mp4"; HelpOr; HelpCommand])
  | _ => (Some existing_files, st)
  end.

Definition run_tracker (env : Env) (st : State) (files : list string)
    : Outcome bool * State :=
  let st := say st [Launching] in
  let cmd := [executable env; "video_tracker.py"; "--videos"] ++ files in
  let st := launch st cmd in
  match video_tracker env files with
  | Completed _ => (Returned true, say st [TrackingDone])
  | CalledProcessError => (Returned false, say st [TrackingFailed])
  | FileNotFoundError => (Raised, st)
  end.

(** The commands that launch [video_tracker.py]. *)
Definition is_tracker_launch (cmd : list string) : bool :=
  match cmd with
  | _ :: script :: _ => String.eqb script "video_tracker.py"
  | _ => false
  end.

Definition main (env : Env) : Outcome unit * State :=
  let st := say (mkState [] []) [Banner; Rule] in
  let '(found, st) := check_conda_env env st in
  let st :=
    if found then st
    else
      let st := say st [TryCreate] in
      let '(created, st) := create_conda_env env st in
      if created then st else say st [ContinueCurrent] in
  match install_dependencies env st with
  | (Raised, st) => (Raised, st)
  | (Returned false, st) => (Returned tt, say st [InstallManually])
  | (Returned true, st) =>
      match check_video_files env st with
      | (None, st) => (Returned tt, st)
      | (Some files, st) =>
          match run_tracker env st files with
          | (Raised, st) => (Raised, st)
          | (Returned _, st) =>
              (Returned tt, say st [OutputLocation; OutputSuffix])
          end
      end
  end.

End RunTracker.

(** ** The environment check ([test_basic.py]) *)

Module TestBasic.

Inductive Line :=
| Version (major minor micro : Z)
| VersionOk | VersionTooLow
| PackageInstalled (package : string)
| PackageMissing (package : string)
| OptionalMissing (package : string)
| VideoFound (video_file : string) (size_mb : Q)
| VideoMissing (video_file : string).

Definition check_python_version (major minor micro : Z) : bool * list Line :=
  if (3 <=? major) && (8 <=? minor)
  then (true, [Version major minor micro; VersionOk])
  else (false, [Version major minor micro; VersionTooLow]).

Definition required_packages : list string := ["cv2"; "numpy"; "tqdm"].

Definition optional_packages : list (string * string) :=
  [("supervision", "supervision"); ("ultralytics", "ultralytics");
   ("torch", "torch")].

(** [check_packages], for an interpreter in which [importable] tells which
    modules [__import__] finds. *)
Definition check_packages (importable : string -> bool) : bool * list Line :=
  let '(missing_packages, out) :=
    foldl (fun '(missing_packages, out) package =>
             if importable package
             then (missing_packages, out ++ [PackageInstalled package])
             else (missing_packages ++ [package],
                   out ++ [PackageMissing package]))
          ([], []) required_packages in
  let out :=
    foldl (fun out '(package_name, import_name) =>
             if importable import_name
             then out ++ [PackageInstalled package_name]
             else out ++ [OptionalMissing package_name])
          out optional_packages in
  ((length missing_packages =? 0)%nat, out).

Definition video_files : list string := ["video1.mp4"; "video2.mp4"].

Definition check_video_files (path_exists : string -> bool)
    (getsize : string -> Z) : list string * list Line :=
  foldl (fun '(found_files, out) video_file =>
           if path_exists video_file
           then
             let size := (inject_Z (getsize video_file)
                          / inject_Z (1024 * 1024))%Q in
             (found_files ++ [video_file], out ++ [VideoFound video_file size])
           else (found_files, out ++ [VideoMissing video_file]))
        ([], []) video_files.

End TestBasic.

(** ** Detections from outside the catalog *)

(** [with_outsiders raw raw']: [raw'] is [raw] with detections whose class
    id is not a key of the catalog put in at any positions. *)
Inductive with_outsiders : list Detection -> list Detection -> Prop :=
| wo_nil : with_outsiders [] []
| wo_keep d raw raw' :
    with_outsiders raw raw' -> with_outsiders (d :: raw) (d :: raw')
| wo_extra d raw raw' :
    class_id d ∉ Dict.keys target_classes ->
    with_outsiders raw raw' -> with_outsiders raw (d :: raw').

(** Two detectors that fail on the same frames and, on every other frame,
    differ only in detections from outside the catalog that the second one
    reports on top of the first one's. *)
Definition adds_outsiders {Image : Type}
    (model model' : Image -> option (list Detection)) : Prop :=
  forall img,
    match model img, model' img with
    | Some raw, Some raw' => with_outsiders raw raw'
    | None, None => True
    | _, _ => False
    end.

(** ** A small concrete world, to run the pipeline on *)

Module Demo.

(** A frame is its number in the stream and the drawing calls made on it. *)
Inductive DrawCall :=
| Rectangle (pt1 pt2 : Point) (color : Color) (thickness : Z)
| Text (text : string) (org : Point) (color : Color) (thickness : Z)
| Polylines (pts : list Point) (closed : bool) (color : Color) (thickness : Z).

Record Image := mkImage {
  frame_no : Z;
  calls : list DrawCall
}.

Definition rectangle (img : Image) (pt1 pt2 : Point) (color : Color)
    (thickness : Z) : Image :=
  mkImage (frame_no img) (calls img ++ [Rectangle pt1 pt2 color thickness]).

Definition getTextSize (text : string) (thickness : Z) : Z * Z :=
  (10 * Z.of_nat (String.length text), 12).

Definition putText (img : Image) (text : string) (org : Point) (color : Color)
    (thickness : Z) : Image :=
  mkImage (frame_no img) (calls img ++ [Text text org color thickness]).

Definition polylines (img : Image) (pts : list Point) (closed : bool)
    (color : Color) (thickness : Z) : Image :=
  mkImage (frame_no img) (calls img ++ [Polylines pts closed color thickness]).

Definition format_label (class_name : string) (track_id : Z) (conf : Q)
    : string :=
  String.append class_name " #".

Definition person : Detection :=
  mkDetection (inject_Z 10, inject_Z 20, inject_Z 50, inject_Z 100) 0 (9 # 10).

Definition outsider : Detection :=
  mkDetection (inject_Z 200, inject_Z 200, inject_Z 260, inject_Z 240) 99 (1 # 2).

(** The detector sees one person in every frame, shifted by the frame
    number, and raises on frame 13. *)
Definition model (img : Image) : option (list Detection) :=
  if frame_no img =? 13 then None
  else
    Some [mkDetection (inject_Z (10 + frame_no img), inject_Z 20,
                       inject_Z (50 + frame_no img), inject_Z 100) 0 (9 # 10)].

(** The same detector, seeing in every frame a class-99 object as well. *)
Definition model_with_outsider (img : Image) : option (list Detection) :=
  match model img with
  | Some raw => Some (outsider :: raw)
  | None => None
  end.

(** The tracker numbers the detections it is given, one after the other,
    and never forgets where it stopped. *)
Definition ByteTrack : Type := Z.

Fixpoint number (next : Z) (detections : list Detection)
    : list TrackedDetection :=
  match detections with
  | [] => []
  | d :: rest => mkTracked d next :: number (next + 1) rest
  end.

Definition update_with_detections (next : ByteTrack)
    (detections : list Detection) : ByteTrack * list TrackedDetection :=
  (next + Z.of_nat (length detections), number next detections).

Definition clip (fps : Q) (numbers : list Z) : VideoFile Image :=
  mkVideoFile true fps (inject_Z 640) (inject_Z 480)
    (inject_Z (Z.of_nat (length numbers)))
    (map (fun n => mkImage n []) numbers).

Definition video1 : VideoFile Image := clip (inject_Z 25) [1; 2].
Definition video2 : VideoFile Image := clip (inject_Z 30) [1; 2; 3].
Definition cctv : VideoFile Image := clip (25 # 2) [1].
Definition faulty : VideoFile Image := clip (inject_Z 25) [13; 14].

Definition fs (path : string) : option (VideoFile Image) :=
  if String.eqb path "video1.mp4" then Some video1
  else if String.eqb path "video2.mp4" then Some video2
  else if String.eqb path "cctv.mp4" then Some cctv
  else if String.eqb path "faulty.mp4" then Some faulty
  else if String.eqb path "locked.mp4"
       then Some (mkVideoFile false 0 0 0 0 [])
  else None.

Definition main_output_path (video_path : string) : string :=
  tracked_output_path "output" video_path.

Definition sink_opens (path : string) : bool :=
  negb (String.eqb path "output/video2_tracked.mp4").

Definition blank (n : Z) : Image := mkImage n [].

Definition centers40 : list Point :=
  map (fun i => (100 + Z.of_nat i, 50)) (seq 1 40).

(** A detector that sees nothing but the class-99 object. *)
Definition model_outsider_only (img : Image) : option (list Detection) :=
  Some [outsider].

Definition writer (path : string) : VideoWriter Image :=
  mkVideoWriter path 25 (640, 480) true [].

(** The launcher's surroundings: no conda, dependencies installed, only
    the first default video in place, and a tracker run that fails. *)
Definition launcher_env : RunTracker.Env :=
  RunTracker.mkEnv RunTracker.FileNotFoundError RunTracker.FileNotFoundError
    (RunTracker.Completed "") (fun _ => RunTracker.CalledProcessError)
    "python3" (fun p => String.eqb p "video1.mp4").

End Demo.

(** ** The pipeline, over its external collaborators *)

Section Pipeline.

(** Pixel contents of a frame buffer, and the OpenCV drawing primitives as
    functions from the old contents of the buffer to the new ones (font
    [FONT_HERSHEY_SIMPLEX] and scale [0.5] are fixed in the source). *)
Variable Image : Type.
Variable cv2_rectangle : Image -> Point -> Point -> Color -> Z -> Image.
Variable cv2_getTextSize : string -> Z -> Z * Z.
Variable cv2_putText : Image -> string -> Point -> Color -> Z -> Image.
Variable cv2_polylines : Image -> list Point -> bool -> Color -> Z -> Image.

(** The f-string [f"{class_name} #{track_id} ({confidence:.2f})"]. *)
Variable format_label : string -> Z -> Q -> string.

(** The detector, [sv.Detections.from_ultralytics(self.model(frame)[0])];
    [None] when inference raises. *)
Variable model : Image -> option (list Detection).

(** The tracker: [sv.ByteTrack()] builds its state, and
    [update_with_detections] updates that state in place and returns the
    detections it tracks, each with its identity. *)
Variable ByteTrack : Type.
Variable update_with_detections :
  ByteTrack -> list Detection -> ByteTrack * list TrackedDetection.

(** The file system: what is at a path, if anything. *)
Variable fs : string -> option (VideoFile Image).

(** Whether [cv2.VideoWriter] can open a path for writing. *)
Variable sink_opens : string -> bool.

(** [str(output_dir / f"{Path(video_path).stem}_tracked.mp4")] of [main]. *)
Variable main_output_path : string -> string.

(** Frame buffers: a reference is an index into the heap. *)
Local Abbreviation Heap := (list Image).

(** *** [VideoTracker.draw_annotations] *)

(** The body of the loop over the detections. *)
Definition draw_detection (annotated_frame : nat)
    (st : Heap * gmap Z (list Point)) (d : TrackedDetection)
    : Heap * gmap Z (list Point) :=
  let '(h, track_history) := st in
  match Dict.get target_classes (class_id d) with
  | None => (h, track_history)
  | Some class_name =>
      let color := default (255, 255, 255) (Dict.get colors class_name) in
      let '(bx1, by1, bx2, by2) := xyxy d in
      let x1 := int bx1 in
      let y1 := int by1 in
      let x2 := int bx2 in
      let y2 := int by2 in
      let h := alter (fun img => cv2_rectangle img (x1, y1) (x2, y2) color 2)
                 annotated_frame h in
      let label := format_label class_name (tracker_id d) (confidence d) in
      let label_size := cv2_getTextSize label 2 in
      let h := alter (fun img => cv2_rectangle img
                                   (x1, y1 - snd label_size - 10)
                                   (x1 + fst label_size, y1) color (-1))
                 annotated_frame h in
      let h := alter (fun img => cv2_putText img label (x1, y1 - 5)
                                   (255, 255, 255) 2)
                 annotated_frame h in
      let center := ((x1 + x2) / 2, (y1 + y2) / 2) in
      let track_history := record track_history (tracker_id d) center in
      let h :=
        match track_history !! tracker_id d with
        | Some points =>
            if (1 <? length points)%nat
            then alter (fun img => cv2_polylines img points false color 2)
                   annotated_frame h
            else h
        | None => h
        end in
      (h, track_history)
  end.

(** [frame.copy()]: a new buffer with the contents of [frame]. *)
Definition copy (h : Heap) (frame : nat) : nat * Heap :=
  match h !! frame with
  | Some img => (length h, h ++ [img])
  | None => (frame, h)
  end.

Definition draw_annotations (h : Heap) (frame : nat)
    (detections : list TrackedDetection)
    (track_history : gmap Z (list Point))
    : nat * Heap * gmap Z (list Point) :=
  let '(annotated_frame, h) := copy h frame in
  if (length detections =? 0)%nat
  then (annotated_frame, h, track_history)
  else
    let '(h, track_history) :=
      foldl (draw_detection annotated_frame) (h, track_history) detections in
    (annotated_frame, h, track_history).

(** *** [VideoTracker.process_video] *)

(** The loop over [detections.class_id] that updates the statistics. *)
Definition update_stats (detection_stats : list (string * Z))
    (detections : list TrackedDetection) : list (string * Z) :=
  foldl (fun stats c =>
           match Dict.get target_classes c with
           | Some class_name => Dict.update Z.succ class_name stats
           | None => stats
           end)
        detection_stats (map (fun d : TrackedDetection => class_id d) detections).

(** The variables the frame loop reads and writes. *)
Record Loop := mkLoop {
  l_tracker : ByteTrack;
  l_heap : Heap;
  l_stats : list (string * Z);
  l_history : gmap Z (list Point);
  l_out : VideoWriter Image
}.

(** One iteration, for a frame [cap.read()] delivered with contents [img];
    [None] when the detector raises. *)
Definition process_frame (s : Loop) (img : Image) : option Loop :=
  let frame := length (l_heap s) in
  let h := l_heap s ++ [img] in
  match model img with
  | None => None
  | Some raw =>
      let detections := filter_target_classes raw in
      let '(tracker, detections) :=
        update_with_detections (l_tracker s) detections in
      let '(annotated_frame, h, track_history) :=
        draw_annotations h frame detections (l_history s) in
      let detection_stats := update_stats (l_stats s) detections in
      let out := write (l_out s) (h !! annotated_frame) in
      Some (mkLoop tracker h detection_stats track_history out)
  end.

(** The [while True] loop: it ends when the source has no frame left, or
    when an iteration raises, with the state reached by then. *)
Fixpoint process_frames (s : Loop) (imgs : list Image) : Outcome unit * Loop :=
  match imgs with
  | [] => (Returned tt, s)
  | img :: rest =>
      match process_frame s img with
      | Some s' => process_frames s' rest
      | None => (Raised, s)
      end
  end.

Record World := mkWorld {
  console : list Msg;
  heap : Heap;
  sinks : list (VideoWriter Image)
}.

Definition print (w : World) (msgs : list Msg) : World :=
  mkWorld (console w ++ msgs) (heap w) (sinks w).

Definition zero_stats : list (string * Z) :=
  map (fun class_name => (class_name, 0)) (Dict.values target_classes).

(** The summary lines: the classes with a positive count. *)
Definition stat_lines (detection_stats : list (string * Z)) : list Msg :=
  map (fun '(class_name, count) => MsgStat class_name count)
      (filter (fun '(_, count) => 0 < count) detection_stats).

Definition process_video (self : ByteTrack) (w : World) (video_path : string)
    (output_path : option string) : Outcome bool * ByteTrack * World :=
  match fs video_path with
  | None => (Returned false, self, print w [MsgNotFound video_path])
  | Some cap =>
      let w := print w [MsgStart video_path] in
      if negb (can_open cap)
      then (Returned false, self, print w [MsgCannotOpen video_path])
      else
        let fps := int (prop_fps cap) in
        let width := int (prop_width cap) in
        let height := int (prop_height cap) in
        let total_frames := int (prop_frame_count cap) in
        let w := print w [MsgInfo width height fps total_frames] in
        let output_path :=
          match output_path with
          | None => default_output_path video_path
          | Some p => p
          end in
        let out := mkVideoWriter output_path fps (width, height)
                     (sink_opens output_path) [] in
        let detection_stats := zero_stats in
        let track_history : gmap Z (list Point) := ∅ in
        let '(r, s) :=
          process_frames
            (mkLoop self (heap w) detection_stats track_history out)
            (frames cap) in
        match r with
        | Raised =>
            (Raised, l_tracker s,
             mkWorld (console w) (l_heap s) (sinks w ++ [l_out s]))
        | Returned _ =>
            (Returned true, l_tracker s,
             mkWorld (console w ++ [MsgDone output_path; MsgStatsHeader]
                                ++ stat_lines (l_stats s))
                     (l_heap s) (sinks w ++ [l_out s]))
        end
  end.

(** *** [main]: the loop over the videos *)

Fixpoint main_loop (tracker : ByteTrack) (w : World) (videos : list string)
    : Outcome unit * ByteTrack * World :=
  match videos with
  | [] => (Returned tt, tracker, print w [MsgAllDone])
  | video_path :: rest =>
      match fs video_path with
      | Some _ =>
          let output_path := main_output_path video_path in
          match process_video tracker w video_path (Some output_path) with
          | (Returned success, tracker, w) =>
              main_loop tracker
                (if success then w else print w [MsgFailed video_path]) rest
          | (Raised, tracker, w) => (Raised, tracker, w)
          end
      | None => main_loop tracker (print w [MsgMissing video_path]) rest
      end
  end.

(** *** Observations used to state the properties *)

(** The tracker state after the frame loop has gone through [imgs]: every
    frame the detector handles feeds its filtered detections to the
    tracker; the loop stops at the first frame on which the detector raises. *)
Fixpoint tracker_after (tracker : ByteTrack) (imgs : list Image) : ByteTrack :=
  match imgs with
  | [] => tracker
  | img :: rest =>
      match model img with
      | Some raw =>
          tracker_after
            (update_with_detections tracker (filter_target_classes raw)).1 rest
      | None => tracker
      end
  end.

(** Two writers on the same file with the same encoding parameters. *)
Definition same_sink (a b : VideoWriter Image) : Prop :=
  writer_path a = writer_path b
  /\ writer_fps a = writer_fps b
  /\ writer_size a = writer_size b
  /\ writer_opened a = writer_opened b.

(** A source [process_video] gives up on: nothing at the path, or a file
    the capture cannot open. *)
Definition source_unavailable (video_path : string) : Prop :=
  match fs video_path with
  | None => True
  | Some cap => can_open cap = false
  end.

(** The frames the loop gets through: those before the first frame on
    which the detector raises. *)
Fixpoint handled (imgs : list Image) : list Image :=
  match imgs with
  | [] => []
  | img :: rest =>
      match model img with
      | Some _ => img :: handled rest
      | None => []
      end
  end.

(** A source [process_video] goes through with: a file that opens. *)
Definition available (video_path : string) : bool :=
  match fs video_path with
  | Some cap => can_open cap
  | None => false
  end.

(** ** Properties *)

(** *** Trajectory store *)

Lemma record_lookup (th : gmap Z (list Point)) track_id center :
  record th track_id center !! track_id
  = Some (trim (default [] (th !! track_id) ++ [center])).
Proof.
  unfold record, trim.
  destruct (th !! track_id) as [l|] eqn:E; simpl.
  - rewrite lookup_alter_eq, E. simpl.
    destruct (30 <? length (l ++ [center]))%nat.
    + by rewrite lookup_insert_eq.
    + by rewrite lookup_alter_eq, E.
  - rewrite lookup_alter_eq, lookup_insert_eq. simpl.
    by rewrite lookup_alter_eq, lookup_insert_eq.
Qed.

Lemma record_lookup_ne (th : gmap Z (list Point)) track_id center other :
  other ≠ track_id ->
  record th track_id center !! other = th !! other.
Proof.
  intros Hne. unfold record.
  set (th1 := match th !! track_id with
              | Some _ => th | None => <[track_id:=[]]> th end).
  assert (H1 : th1 !! other = th !! other).
  { subst th1. destruct (th !! track_id); [done|].
    by rewrite lookup_insert_ne. }
  destruct (alter _ track_id th1 !! track_id) as [l|] eqn:E.
  - destruct (30 <? length l)%nat.
    + rewrite lookup_insert_ne by done. by rewrite lookup_alter_ne.
    + by rewrite lookup_alter_ne.
  - by rewrite lookup_alter_ne.
Qed.

Lemma slice_last_length {A} (n : nat) (l : list A) :
  length (slice_last n l) = Nat.min (length l) n.
Proof. unfold slice_last. rewrite length_drop. lia. Qed.

Lemma trim_slice_last_snoc (l : list Point) (p : Point) :
  trim (slice_last 30 l ++ [p]) = slice_last 30 (l ++ [p]).
Proof.
  unfold trim.
  rewrite length_app, slice_last_length. simpl.
  destruct (30 <? Nat.min (length l) 30 + 1)%nat eqn:E.
  - apply Nat.ltb_lt in E.
    unfold slice_last.
    rewrite !length_app, length_drop. simpl.
    replace (length l - (length l - 30) + 1 - 30)%nat with 1%nat by lia.
    replace (length l + 1 - 30)%nat with (S (length l - 30)) by lia.
    rewrite (drop_app_le l [p] (S (length l - 30))) by lia.
    rewrite drop_app_le by (rewrite length_drop; lia).
    by rewrite drop_drop, Nat.add_1_r.
  - apply Nat.ltb_ge in E.
    unfold slice_last. rewrite length_app. simpl.
    replace (length l - 30)%nat with 0%nat by lia.
    replace (length l + 1 - 30)%nat with 0%nat by lia.
    done.
Qed.

Lemma record_all_snoc th track_id centers c :
  record_all th track_id (centers ++ [c])
  = record (record_all th track_id centers) track_id c.
Proof. unfold record_all. by rewrite foldl_snoc. Qed.

Lemma record_all_window th track_id centers :
  th !! track_id = None ->
  default [] (record_all th track_id centers !! track_id)
  = slice_last 30 centers.
Proof.
  intros Hnew. induction centers as [|c centers IH] using rev_ind.
  - simpl. by rewrite Hnew.
  - rewrite record_all_snoc, record_lookup. simpl.
    rewrite IH. apply trim_slice_last_snoc.
Qed.

Lemma record_all_is_Some th track_id centers :
  centers ≠ [] -> is_Some (record_all th track_id centers !! track_id).
Proof.
  destruct centers as [|c centers _] using rev_ind; [done|].
  intros _. rewrite record_all_snoc, record_lookup. eauto.
Qed.

Lemma record_all_lookup_ne th track_id centers other :
  other ≠ track_id ->
  record_all th track_id centers !! other = th !! other.
Proof.
  intros Hne. induction centers as [|c centers IH] using rev_ind; [done|].
  rewrite record_all_snoc, record_lookup_ne by done. exact IH.
Qed.

(** C1.  Starting from a store that has not seen [track_id], after the
    [n]-th [record] call on that id (for every [n] from 1 to the number of
    calls) the stored trajectory has at most 30 points, exactly
    [min n 30] of them, and it is the last [min n 30] of the [n] points
    recorded so far, in the order they were recorded. *)
Theorem record_keeps_last_30 (th : gmap Z (list Point)) (track_id : Z)
    (centers : list Point) (n : nat) :
  th !! track_id = None ->
  (0 < n <= length centers)%nat ->
  let recorded := take n centers in
  exists trajectory,
    record_all th track_id recorded !! track_id = Some trajectory
    /\ (length trajectory <= 30)%nat
    /\ length trajectory = Nat.min n 30
    /\ trajectory = drop (n - Nat.min n 30) recorded.
Proof.
  intros Hnew Hn recorded.
  assert (Hlen : length recorded = n).
  { subst recorded. rewrite length_take. lia. }
  destruct (record_all_is_Some th track_id recorded) as [t Ht].
  { intros E. rewrite E in Hlen. simpl in Hlen. lia. }
  pose proof (record_all_window th track_id recorded Hnew) as Hw.
  rewrite Ht in Hw. simpl in Hw. subst t.
  exists (slice_last 30 recorded). split; [done|].
  rewrite slice_last_length, Hlen.
  repeat split; [lia|].
  unfold slice_last. rewrite Hlen. f_equal. lia.
Qed.

(** *** Detection filter *)

Lemma filter_target_classes_filter (detections : list Detection) :
  filter_target_classes detections
  = filter (fun d => class_id d ∈ Dict.keys target_classes) detections.
Proof.
  unfold filter_target_classes, np_isin.
  induction detections as [|d ds IH]; [done|].
  cbn [map mask_index]. rewrite IH, filter_cons.
  destruct (decide (class_id d ∈ Dict.keys target_classes)) as [Hin|Hout].
  - by rewrite bool_decide_eq_true_2.
  - by rewrite bool_decide_eq_false_2.
Qed.

(** C4.  The filter returns exactly the detections whose class id is a key
    of the catalog (the keys being 0, 2, 3, 5 and 7), in their original
    relative order: it is the order-preserving selection of those rows, a
    subsequence of its input.  It is a function of its input alone.  On no
    detections it returns none, and when no detection has a catalog class
    it returns none. *)
Theorem filter_selects_catalog_classes (detections : list Detection) :
  Dict.keys target_classes = [0; 2; 3; 5; 7]
  /\ filter_target_classes detections
     = filter (fun d => class_id d ∈ Dict.keys target_classes) detections
  /\ sublist (filter_target_classes detections) detections
  /\ filter_target_classes [] = []
  /\ (Forall (fun d => class_id d ∉ Dict.keys target_classes) detections ->
      filter_target_classes detections = []).
Proof.
  split; [reflexivity|].
  split; [apply filter_target_classes_filter|].
  split; [rewrite filter_target_classes_filter; apply sublist_filter|].
  split; [reflexivity|].
  intros Hnone. rewrite filter_target_classes_filter.
  induction Hnone as [|d ds Hd _ IH]; [done|].
  by rewrite filter_cons_False.
Qed.

(** C8.  Filtering an already filtered sequence of detections gives the
    same sequence. *)
Theorem filter_idempotent (detections : list Detection) :
  filter_target_classes (filter_target_classes detections)
  = filter_target_classes detections.
Proof.
  rewrite !filter_target_classes_filter.
  induction detections as [|d ds IH]; [done|].
  rewrite filter_cons. destruct (decide _) as [Hin|Hout]; [|exact IH].
  rewrite filter_cons_True by done. by rewrite IH.
Qed.

(** *** Default output name *)

Lemma replace_from_absent (old new s : string) :
  contains old s = false -> replace_from old new 0 s = s.
Proof.
  induction s as [|c s IH]; [done|].
  intros Habs. cbn [contains] in Habs.
  apply orb_false_iff in Habs as [Hhere Hrest].
  cbn [replace_from]. rewrite Hhere. by rewrite IH.
Qed.

Lemma default_output_path_absent (video_path : string) :
  contains ".mp4" video_path = false ->
  default_output_path video_path = video_path.
Proof. apply replace_from_absent. Qed.

Example default_output_path_mp4 :
  default_output_path "video1.mp4" = "video1_tracked.mp4".
Proof. reflexivity. Qed.

(** C3.  For the input path [video.avi] the output path derived by
    [process_video] is [video.avi] again: nothing is appended, and the
    output path is the input path. *)
Theorem default_output_path_avi :
  default_output_path "video.avi" = "video.avi".
Proof. reflexivity. Qed.

(** *** Frame annotator *)

Lemma draw_detection_length a st d :
  length (draw_detection a st d).1 = length st.1.
Proof.
  destruct st as [h th]. unfold draw_detection.
  destruct (Dict.get target_classes (class_id d)) as [name|]; [|done].
  destruct (xyxy d) as [[[bx1 by1] bx2] by2].
  destruct (record th (tracker_id d) _ !! tracker_id d) as [pts|];
    [destruct (1 <? length pts)%nat|]; simpl; by rewrite !length_alter.
Qed.

Lemma draw_detection_lookup_ne a st d i :
  i <> a -> (draw_detection a st d).1 !! i = st.1 !! i.
Proof.
  intros Hne. destruct st as [h th]. unfold draw_detection.
  destruct (Dict.get target_classes (class_id d)) as [name|]; [|done].
  destruct (xyxy d) as [[[bx1 by1] bx2] by2].
  destruct (record th (tracker_id d) _ !! tracker_id d) as [pts|];
    [destruct (1 <? length pts)%nat|]; simpl;
    by rewrite !list_lookup_alter_ne.
Qed.

(** For a detection of a catalog class, what the annotator does to the
    history is one [record] of the center of its box under its track id. *)
Lemma draw_detection_records a h th (d : TrackedDetection) class_name :
  Dict.get target_classes (class_id d) = Some class_name ->
  (draw_detection a (h, th) d).2
  = record th (tracker_id d)
      ((int (xyxy d).1.1.1 + int (xyxy d).1.2) / 2,
       (int (xyxy d).1.1.2 + int (xyxy d).2) / 2).
Proof.
  intros Hget. unfold draw_detection. rewrite Hget.
  destruct (xyxy d) as [[[bx1 by1] bx2] by2]. cbn [fst snd].
  set (center := ((int bx1 + int bx2) / 2, (int by1 + int by2) / 2)).
  destruct (record th (tracker_id d) center !! tracker_id d) as [pts|];
    [destruct (1 <? length pts)%nat|]; reflexivity.
Qed.

Lemma draw_detections_lookup_ne a st ds i :
  i <> a -> (foldl (draw_detection a) st ds).1 !! i = st.1 !! i.
Proof.
  intros Hne. revert st. induction ds as [|d ds IH]; intros st; [done|].
  simpl. rewrite IH. by apply draw_detection_lookup_ne.
Qed.

(** C5.  Called with no detections on a frame whose buffer holds [img],
    [draw_annotations] returns a buffer that holds [img] as well, and the
    trajectory history it was given. *)
Theorem draw_annotations_no_detections (h : list Image) (frame : nat)
    (img : Image) (track_history : gmap Z (list Point)) :
  h !! frame = Some img ->
  exists annotated_frame h',
    draw_annotations h frame [] track_history
    = (annotated_frame, h', track_history)
    /\ h' !! annotated_frame = Some img
    /\ h' !! frame = Some img.
Proof.
  intros Hframe. unfold draw_annotations, copy. rewrite Hframe. simpl.
  exists (length h), (h ++ [img]). split; [done|]. split.
  - by rewrite list_lookup_middle.
  - rewrite lookup_app_l; [done|]. by eapply lookup_lt_Some.
Qed.

(** C9.  Whatever the detections, [draw_annotations] draws on a buffer of
    its own: the buffer it returns is not the caller's frame, the caller's
    frame holds after the call what it held before, and so does every other
    buffer that existed before the call. *)
Theorem draw_annotations_keeps_input (h : list Image) (frame : nat)
    (img : Image) (detections : list TrackedDetection)
    (track_history : gmap Z (list Point)) :
  h !! frame = Some img ->
  let '(annotated_frame, h', _) :=
    draw_annotations h frame detections track_history in
  annotated_frame <> frame
  /\ h' !! frame = Some img
  /\ forall i, (i < length h)%nat -> h' !! i = h !! i.
Proof.
  intros Hframe. unfold draw_annotations, copy. rewrite Hframe.
  pose proof (lookup_lt_Some _ _ _ Hframe) as Hlt.
  assert (Hold : forall i, (i < length h)%nat ->
            (foldl (draw_detection (length h)) (h ++ [img], track_history)
               detections).1 !! i = h !! i).
  { intros i Hi. rewrite draw_detections_lookup_ne by lia.
    simpl. by rewrite lookup_app_l. }
  destruct (length detections =? 0)%nat.
  - split; [lia|]. split.
    + by rewrite lookup_app_l.
    + intros i Hi. by rewrite lookup_app_l.
  - destruct (foldl _ _ detections) as [h' th'] eqn:E. simpl in Hold.
    split; [lia|]. split; [|exact Hold].
    by rewrite Hold.
Qed.

(** *** Video pipeline *)

Lemma write_same_sink (out : VideoWriter Image) frame :
  same_sink (write out frame) out.
Proof.
  unfold same_sink, write.
  destruct frame as [img|]; [|done].
  destruct (writer_opened out) eqn:E; simpl; by rewrite ?E.
Qed.

Lemma process_frame_same_sink s img s' :
  process_frame s img = Some s' -> same_sink (l_out s') (l_out s).
Proof.
  unfold process_frame. destruct (model img) as [raw|]; [|done].
  destruct (update_with_detections _ _) as [tracker detections].
  destruct (draw_annotations _ _ _ _) as [[a h] th].
  intros [= <-]. simpl. apply write_same_sink.
Qed.

Lemma process_frames_same_sink imgs s r s' :
  process_frames s imgs = (r, s') -> same_sink (l_out s') (l_out s).
Proof.
  revert s. induction imgs as [|img rest IH]; intros s; simpl.
  - by intros [= _ <-].
  - destruct (process_frame s img) as [s1|] eqn:E.
    + intros H. apply IH in H. apply process_frame_same_sink in E.
      unfold same_sink in *. intuition congruence.
    + by intros [= _ <-].
Qed.

Lemma process_frame_tracker s img s' :
  process_frame s img = Some s' ->
  exists raw, model img = Some raw
    /\ l_tracker s'
       = (update_with_detections (l_tracker s) (filter_target_classes raw)).1.
Proof.
  unfold process_frame. destruct (model img) as [raw|]; [|done].
  destruct (update_with_detections _ _) as [tracker detections] eqn:U.
  destruct (draw_annotations _ _ _ _) as [[a h] th].
  intros [= <-]. exists raw. by rewrite U.
Qed.

Lemma process_frames_tracker imgs s r s' :
  process_frames s imgs = (r, s') ->
  l_tracker s' = tracker_after (l_tracker s) imgs.
Proof.
  revert s. induction imgs as [|img rest IH]; intros s; simpl.
  - by intros [= _ <-].
  - destruct (process_frame s img) as [s1|] eqn:E.
    + intros H. apply IH in H.
      apply process_frame_tracker in E as (raw & -> & Ht).
      by rewrite H, Ht.
    + intros [= _ <-]. unfold process_frame in E.
      destruct (model img) as [raw|]; [|done].
      destruct (update_with_detections _ _) as [tracker detections].
      by destruct (draw_annotations _ _ _ _) as [[a h] th].
Qed.

Lemma tracker_after_app imgs1 imgs2 s s' tracker :
  process_frames s imgs1 = (Returned tt, s') ->
  tracker_after tracker (imgs1 ++ imgs2)
  = tracker_after (tracker_after tracker imgs1) imgs2.
Proof.
  revert s tracker. induction imgs1 as [|img rest IH]; intros s tracker; [done|].
  simpl. destruct (process_frame s img) as [s1|] eqn:E; [|done].
  apply process_frame_tracker in E as (raw & -> & _).
  apply IH.
Qed.

Lemma int_inject_Z (x : Q) (k : Z) : (x == inject_Z k)%Q -> int x = k.
Proof.
  unfold Qeq, int. simpl. intros H.
  rewrite Z.mul_1_r in H. rewrite H.
  apply Z.quot_mul. done.
Qed.

(** C6.  For every source that can be opened, the writer [process_video]
    creates is given the source's frame rate truncated to an integer, and
    the source's width and height truncated likewise; the frame loop does not
    change them.  When the source's frame rate, width and height are whole
    numbers, the output has exactly that rate and resolution. *)
Theorem output_rate_and_size (self : ByteTrack) (w : World)
    (video_path : string) (output_path : option string)
    (cap : VideoFile Image) :
  fs video_path = Some cap ->
  can_open cap = true ->
  exists r self' w' out,
    process_video self w video_path output_path = (r, self', w')
    /\ sinks w' = sinks w ++ [out]
    /\ writer_fps out = int (prop_fps cap)
    /\ writer_size out = (int (prop_width cap), int (prop_height cap))
    /\ forall fps width height : Z,
         (prop_fps cap == inject_Z fps)%Q ->
         (prop_width cap == inject_Z width)%Q ->
         (prop_height cap == inject_Z height)%Q ->
         writer_fps out = fps /\ writer_size out = (width, height).
Proof.
  intros Hfs Hopen. unfold process_video. rewrite Hfs, Hopen. simpl.
  destruct (process_frames _ (frames cap)) as [r s] eqn:E.
  apply process_frames_same_sink in E as (_ & Hfps & Hsize & _).
  simpl in Hfps, Hsize.
  assert (Hint : forall fps width height : Z,
            (prop_fps cap == inject_Z fps)%Q ->
            (prop_width cap == inject_Z width)%Q ->
            (prop_height cap == inject_Z height)%Q ->
            writer_fps (l_out s) = fps /\ writer_size (l_out s) = (width, height)).
  { intros fps width height Hf Hw Hh.
    rewrite Hfps, Hsize.
    by rewrite (int_inject_Z _ _ Hf), (int_inject_Z _ _ Hw), (int_inject_Z _ _ Hh). }
  destruct r; eexists _, _, _, (l_out s); simpl; eauto.
Qed.

Lemma print_print w a b : print (print w a) b = print w (a ++ b).
Proof. unfold print. simpl. by rewrite <- app_assoc. Qed.

(** [process_video] on a source that opens, spelled out on the frame loop. *)
Lemma process_video_opened self w video_path output_path cap :
  fs video_path = Some cap ->
  can_open cap = true ->
  let fps := int (prop_fps cap) in
  let size := (int (prop_width cap), int (prop_height cap)) in
  let path := match output_path with
              | None => default_output_path video_path
              | Some p => p
              end in
  let out := mkVideoWriter path fps size (sink_opens path) [] in
  let head := [MsgStart video_path;
               MsgInfo size.1 size.2 fps (int (prop_frame_count cap))] in
  let run := process_frames (mkLoop self (heap w) zero_stats ∅ out)
               (frames cap) in
  process_video self w video_path output_path
  = match run.1 with
    | Raised =>
        (Raised, l_tracker run.2,
         mkWorld (console w ++ head) (l_heap run.2) (sinks w ++ [l_out run.2]))
    | Returned _ =>
        (Returned true, l_tracker run.2,
         mkWorld (console w ++ head ++ [MsgDone path; MsgStatsHeader]
                            ++ stat_lines (l_stats run.2))
                 (l_heap run.2) (sinks w ++ [l_out run.2]))
    end.
Proof.
  intros Hfs Hopen. unfold process_video. rewrite Hfs, Hopen. simpl.
  destruct (process_frames _ (frames cap)) as [r s]. simpl.
  destruct r; simpl; rewrite <- ?app_assoc; reflexivity.
Qed.

(** C10.  Take two calls of [process_video] on one instance, on sources
    that open, the first call returning normally.  The second call is, in
    everything it returns, prints, writes and leaves in the heap, the frame
    loop run on the second video from a state built anew: the five counters
    of the catalog at zero, an empty trajectory history, a new writer without
    frames; the summary it prints lists the counters of that run that are
    positive.  Nothing of the first call's statistics or trajectories enters
    it.  The tracker is the one thing carried over: the second call starts
    from the tracker state the first call left, which is the state reached
    by feeding the tracker the first video's frames, and the state after the
    second call is the one reached by feeding it the frames of both videos
    in a row. *)
Theorem tracker_persists_statistics_reset (self self1 : ByteTrack)
    (w w1 : World) (path1 path2 : string) (out1 out2 : option string)
    (cap1 cap2 : VideoFile Image) :
  fs path1 = Some cap1 -> can_open cap1 = true ->
  fs path2 = Some cap2 -> can_open cap2 = true ->
  process_video self w path1 out1 = (Returned true, self1, w1) ->
  let output_path :=
    match out2 with
    | Some p => p
    | None => default_output_path path2
    end in
  let out :=
    mkVideoWriter output_path (int (prop_fps cap2))
      (int (prop_width cap2), int (prop_height cap2))
      (sink_opens output_path) [] in
  let fresh :=
    mkLoop self1 (heap w1)
      [("person", 0); ("car", 0); ("motorcycle", 0); ("bus", 0); ("truck", 0)]
      ∅ out in
  let r := (process_frames fresh (frames cap2)).1 in
  let s := (process_frames fresh (frames cap2)).2 in
  let head :=
    [MsgStart path2;
     MsgInfo (int (prop_width cap2)) (int (prop_height cap2))
       (int (prop_fps cap2)) (int (prop_frame_count cap2))] in
  let summary :=
    map (fun '(class_name, count) => MsgStat class_name count)
      (filter (fun '(_, count) => 0 < count) (l_stats s)) in
  self1 = tracker_after self (frames cap1)
  /\ zero_stats
     = [("person", 0); ("car", 0); ("motorcycle", 0); ("bus", 0); ("truck", 0)]
  /\ process_video self1 w1 path2 out2
     = match r with
       | Returned _ =>
           (Returned true, l_tracker s,
            mkWorld (console w1 ++ head
                       ++ [MsgDone output_path; MsgStatsHeader] ++ summary)
              (l_heap s) (sinks w1 ++ [l_out s]))
       | Raised =>
           (Raised, l_tracker s,
            mkWorld (console w1 ++ head) (l_heap s) (sinks w1 ++ [l_out s]))
       end
  /\ l_tracker s = tracker_after self (frames cap1 ++ frames cap2).
Proof.
  intros Hfs1 Hopen1 Hfs2 Hopen2 Hfirst output_path out fresh r s head summary.
  rewrite (process_video_opened _ _ _ _ _ Hfs1 Hopen1) in Hfirst.
  destruct (process_frames _ (frames cap1)) as [r1 s1] eqn:E1.
  simpl in Hfirst. destruct r1 as [[]|]; [|done].
  injection Hfirst as <- <-.
  pose proof (process_frames_tracker _ _ _ _ E1) as Ht1. simpl in Ht1.
  split; [done|]. split; [reflexivity|]. split.
  - rewrite (process_video_opened _ _ _ _ _ Hfs2 Hopen2).
    subst r s summary head fresh out output_path. simpl.
    destruct (process_frames _ (frames cap2)) as [r2 s2]. simpl.
    by destruct r2.
  - subst r s.
    destruct (process_frames fresh (frames cap2)) as [r2 s2] eqn:E2.
    pose proof (process_frames_tracker _ _ _ _ E2) as Ht2.
    simpl in Ht2 |- *. rewrite Ht2, Ht1. symmetry.
    by eapply tracker_after_app.
Qed.

(** *** Failures *)

(** A detector exception on the first frame leaves [process_video] as an
    exception, with no message after the two that open the video. *)
Lemma process_video_detector_raises self w video_path output_path cap img rest :
  fs video_path = Some cap ->
  can_open cap = true ->
  frames cap = img :: rest ->
  model img = None ->
  exists w',
    process_video self w video_path output_path = (Raised, self, w')
    /\ console w'
       = console w ++ [MsgStart video_path;
                       MsgInfo (int (prop_width cap)) (int (prop_height cap))
                         (int (prop_fps cap)) (int (prop_frame_count cap))].
Proof.
  intros Hfs Hopen Hframes Hmodel.
  rewrite (process_video_opened _ _ _ _ _ Hfs Hopen), Hframes.
  simpl. unfold process_frame. rewrite Hmodel. simpl. eauto.
Qed.

(** An exception that leaves [process_video] leaves [main]'s loop too: the
    videos that follow are not looked at. *)
Lemma main_loop_raises tracker w video_path rest cap tracker' w' :
  fs video_path = Some cap ->
  process_video tracker w video_path (Some (main_output_path video_path))
  = (Raised, tracker', w') ->
  main_loop tracker w (video_path :: rest) = (Raised, tracker', w').
Proof. intros Hfs Hraise. simpl. by rewrite Hfs, Hraise. Qed.

(** C2.  A source that is unavailable (nothing at the path, or a file the
    capture cannot open) is reported and skipped: [process_video] returns
    [False] without raising, leaves the tracker as it was and prints a
    failure message that names the video; [main] prints a failure message
    that names the video and goes on with the videos that follow. *)
Theorem unavailable_source_reported_and_skipped (tracker : ByteTrack)
    (w : World) (video_path : string) (rest : list string) :
  source_unavailable video_path ->
  (forall output_path, exists msgs,
     process_video tracker w video_path output_path
     = (Returned false, tracker, print w msgs)
     /\ Exists (fun m => failure_of m = Some video_path) msgs)
  /\ exists msgs,
       main_loop tracker w (video_path :: rest)
       = main_loop tracker (print w msgs) rest
       /\ Exists (fun m => failure_of m = Some video_path) msgs.
Proof.
  unfold source_unavailable. intros Hsrc.
  destruct (fs video_path) as [cap|] eqn:Hfs.
  - split.
    + intros output_path. exists [MsgStart video_path; MsgCannotOpen video_path].
      unfold process_video. rewrite Hfs, Hsrc. simpl.
      rewrite print_print. split; [done|].
      apply Exists_cons_tl, Exists_cons_hd. done.
    + exists [MsgStart video_path; MsgCannotOpen video_path; MsgFailed video_path].
      simpl. rewrite Hfs. unfold process_video. rewrite Hfs, Hsrc. simpl.
      rewrite !print_print. split; [done|].
      apply Exists_cons_tl, Exists_cons_hd. done.
  - split.
    + intros output_path. exists [MsgNotFound video_path].
      unfold process_video. rewrite Hfs. split; [done|].
      by apply Exists_cons_hd.
    + exists [MsgMissing video_path]. simpl. rewrite Hfs.
      split; [done|]. by apply Exists_cons_hd.
Qed.

(** *** The trajectory store inside the annotator and the frame loop *)

Lemma trim_length (l : list Point) : length (trim l) = Nat.min (length l) 30.
Proof.
  unfold trim. destruct (30 <? length l)%nat eqn:E.
  - apply slice_last_length.
  - apply Nat.ltb_ge in E. lia.
Qed.

Lemma record_bounded th track_id center :
  trails_bounded th -> trails_bounded (record th track_id center).
Proof.
  intros Hb k l. destruct (decide (k = track_id)) as [->|Hne].
  - rewrite record_lookup. intros [= <-].
    rewrite trim_length, length_app. simpl. lia.
  - rewrite record_lookup_ne by done. apply Hb.
Qed.

Lemma draw_detection_history a h th (d : TrackedDetection) :
  (draw_detection a (h, th) d).2 = th
  \/ exists center, (draw_detection a (h, th) d).2 = record th (tracker_id d) center.
Proof.
  destruct (Dict.get target_classes (class_id d)) as [name|] eqn:E.
  - right. eexists. by eapply draw_detection_records.
  - left. unfold draw_detection. by rewrite E.
Qed.

Lemma draw_detections_bounded a st ds :
  trails_bounded st.2 -> trails_bounded (foldl (draw_detection a) st ds).2.
Proof.
  revert st. induction ds as [|d ds IH]; intros [h th] Hb; [done|].
  cbn [foldl]. apply IH.
  destruct (draw_detection_history a h th d) as [->|[c ->]]; [done|].
  by apply record_bounded.
Qed.

Lemma draw_detections_history_ne a st ds k :
  k ∉ map tracker_id ds ->
  (foldl (draw_detection a) st ds).2 !! k = st.2 !! k.
Proof.
  revert st. induction ds as [|d ds IH]; intros [h th] Hk; [done|].
  cbn [map] in Hk. apply not_elem_of_cons in Hk as [Hne Hk].
  cbn [foldl]. rewrite IH by done.
  destruct (draw_detection_history a h th d) as [->|[c ->]]; [done|].
  by rewrite record_lookup_ne.
Qed.

Lemma draw_annotations_history h frame ds th :
  (draw_annotations h frame ds th).2
  = (foldl (draw_detection (copy h frame).1) ((copy h frame).2, th) ds).2.
Proof.
  unfold draw_annotations. destruct (copy h frame) as [a h0]. simpl.
  destruct ds as [|d ds]; [done|].
  cbn [length Nat.eqb]. by destruct (foldl _ _ _).
Qed.

(** The annotator keeps the invariant of the trajectory store: if every
    trajectory it is given has between 1 and 30 points, so has every
    trajectory it leaves. *)
Theorem draw_annotations_keeps_trails_bounded (h : list Image) (frame : nat)
    (detections : list TrackedDetection) (track_history : gmap Z (list Point)) :
  trails_bounded track_history ->
  trails_bounded (draw_annotations h frame detections track_history).2.
Proof.
  intros Hb. rewrite draw_annotations_history.
  by apply draw_detections_bounded.
Qed.

(** The annotator touches the trajectories of the track ids in the frame's
    detections only: every other track id has after the call the trajectory
    it had before, or none as before. *)
Theorem draw_annotations_other_trails (h : list Image) (frame : nat)
    (detections : list TrackedDetection) (track_history : gmap Z (list Point))
    (track_id : Z) :
  track_id ∉ map tracker_id detections ->
  (draw_annotations h frame detections track_history).2 !! track_id
  = track_history !! track_id.
Proof.
  intros Hk. rewrite draw_annotations_history.
  by rewrite draw_detections_history_ne.
Qed.

Lemma process_frame_bounded s img s' :
  trails_bounded (l_history s) ->
  process_frame s img = Some s' -> trails_bounded (l_history s').
Proof.
  intros Hb. unfold process_frame. destruct (model img) as [raw|]; [|done].
  destruct (update_with_detections _ _) as [tracker detections].
  destruct (draw_annotations _ _ _ _) as [[a h] th] eqn:E.
  intros [= <-]. simpl.
  change th with (a, h, th).2. rewrite <- E.
  rewrite draw_annotations_history. by apply draw_detections_bounded.
Qed.

(** Through the frame loop, whether it ends normally or on an exception,
    the trajectory history satisfies the invariant at the end if it did at
    the start; [process_video] starts it empty. *)
Theorem process_frames_keeps_trails_bounded (s : Loop) (imgs : list Image) :
  trails_bounded (l_history s) ->
  trails_bounded (l_history (process_frames s imgs).2).
Proof.
  revert s. induction imgs as [|img rest IH]; intros s Hb; [done|].
  simpl. destruct (process_frame s img) as [s1|] eqn:E; [|done].
  apply IH. by eapply process_frame_bounded.
Qed.

(** *** Statistics *)

Lemma dict_get_update {V} (f : V -> V) (k k' : string) (d : list (string * V)) :
  Dict.get (Dict.update f k d) k'
  = if decide (k = k') then f <$> Dict.get d k' else Dict.get d k'.
Proof.
  induction d as [|[k0 v] d IH]; [by destruct (decide _)|].
  cbn [Dict.update]. destruct (decide (k0 = k)) as [->|Hne].
  - cbn [Dict.get]. destruct (decide (k = k')) as [->|Hne']; done.
  - cbn [Dict.get]. destruct (decide (k0 = k')) as [->|Hne'].
    + by destruct (decide (k = k')).
    + exact IH.
Qed.

Lemma dict_keys_update {V} (f : V -> V) (k : string) (d : list (string * V)) :
  Dict.keys (Dict.update f k d) = Dict.keys d.
Proof.
  induction d as [|[k0 v] d IH]; [done|].
  cbn [Dict.update]. destruct (decide (k0 = k)); [done|].
  unfold Dict.keys in *. cbn [map fst]. by rewrite IH.
Qed.

Lemma update_stats_cons stats (d : TrackedDetection) ds :
  update_stats stats (d :: ds)
  = update_stats
      (match Dict.get target_classes (class_id d) with
       | Some class_name => Dict.update Z.succ class_name stats
       | None => stats
       end) ds.
Proof. reflexivity. Qed.

(** The statistics loop adds to the counter of a class name the number of
    detections whose class id the catalog maps to that name, and to no other
    counter; a name that has no counter gets none. *)
Lemma update_stats_get stats (ds : list TrackedDetection) (name : string) :
  Dict.get (update_stats stats ds) name
  = (fun count =>
       count + Z.of_nat (length
                 (filter (fun d : TrackedDetection =>
                            Dict.get target_classes (class_id d) = Some name)
                         ds)))
    <$> Dict.get stats name.
Proof.
  revert stats. induction ds as [|d ds IH]; intros stats.
  - cbn. destruct (Dict.get stats name); simpl; [|done]. f_equal. lia.
  - rewrite update_stats_cons, IH, filter_cons.
    destruct (Dict.get target_classes (class_id d)) as [n|] eqn:E.
    + rewrite dict_get_update.
      destruct (decide (n = name)) as [->|Hne].
      * rewrite decide_True by done.
        destruct (Dict.get stats name); simpl; [|done].
        f_equal. lia.
      * rewrite decide_False by congruence. done.
    + rewrite decide_False by done. done.
Qed.

Lemma target_classes_get_inj (c c' : Z) (name : string) :
  Dict.get target_classes c = Some name ->
  Dict.get target_classes c' = Some name ->
  c = c'.
Proof.
  unfold target_classes. cbn [Dict.get].
  repeat (destruct (decide (_ = c)) as [<-|?]);
    repeat (destruct (decide (_ = c')) as [<-|?]);
    intros H1 H2; try done; congruence.
Qed.

(** Starting from the all-zero statistics of a call, after the statistics
    loop has gone through a list of tracked detections the counter of each
    catalog class holds the number of detections of that class id. *)
Theorem update_stats_counts_class (detections : list TrackedDetection)
    (c : Z) (class_name : string) :
  Dict.get target_classes c = Some class_name ->
  Dict.get (update_stats zero_stats detections) class_name
  = Some (Z.of_nat (length
            (filter (fun d : TrackedDetection => class_id d = c) detections))).
Proof.
  intros Hc. rewrite update_stats_get.
  assert (Hz : Dict.get zero_stats class_name = Some 0).
  { revert Hc. unfold target_classes, zero_stats. cbn.
    repeat (destruct (decide (_ = c)) as [<-|?]); intros [= <-]; reflexivity. }
  assert (Hf : filter (fun d : TrackedDetection =>
                         Dict.get target_classes (class_id d) = Some class_name)
                 detections
               = filter (fun d : TrackedDetection => class_id d = c) detections).
  { induction detections as [|d ds IH]; [done|].
    rewrite !filter_cons, IH.
    destruct (decide (class_id d = c)) as [->|Hne].
    - by rewrite decide_True.
    - rewrite decide_False; [done|].
      intros Hd. apply Hne. by eapply target_classes_get_inj. }
  rewrite Hf, Hz. reflexivity.
Qed.

(** The statistics loop never adds or removes a counter, and never lowers
    one: the class names stay those of the catalog, in its order, also for
    the classes no detection belongs to. *)
Theorem update_stats_keeps_counters (stats : list (string * Z))
    (detections : list TrackedDetection) :
  Dict.keys (update_stats stats detections) = Dict.keys stats
  /\ forall class_name count,
       Dict.get stats class_name = Some count ->
       exists count',
         Dict.get (update_stats stats detections) class_name = Some count'
         /\ count <= count'.
Proof.
  split.
  - revert stats. induction detections as [|d ds IH]; intros stats; [done|].
    rewrite update_stats_cons, IH.
    destruct (Dict.get target_classes (class_id d)); [|done].
    apply dict_keys_update.
  - intros name count Hget. rewrite update_stats_get, Hget. simpl.
    eexists. split; [done|]. lia.
Qed.

(** *** Frames written *)

Lemma draw_detections_length a st ds :
  length (foldl (draw_detection a) st ds).1 = length st.1.
Proof.
  revert st. induction ds as [|d ds IH]; intros st; [done|].
  cbn [foldl]. rewrite IH. apply draw_detection_length.
Qed.

Lemma draw_annotations_buffer h frame img ds th :
  h !! frame = Some img ->
  (draw_annotations h frame ds th).1.1 = length h
  /\ length (draw_annotations h frame ds th).1.2 = S (length h).
Proof.
  intros Hframe. unfold draw_annotations, copy. rewrite Hframe.
  destruct (length ds =? 0)%nat.
  - simpl. rewrite length_app. simpl. lia.
  - pose proof (draw_detections_length (length h) (h ++ [img], th) ds) as Hlen.
    destruct (foldl _ _ ds) as [h' th']. simpl in *.
    rewrite length_app in Hlen. simpl in Hlen. lia.
Qed.

Lemma process_frame_writes s img s' :
  process_frame s img = Some s' ->
  exists annotated, l_out s' = write (l_out s) (Some annotated).
Proof.
  unfold process_frame. destruct (model img) as [raw|]; [|done].
  destruct (update_with_detections _ _) as [tracker detections].
  pose proof (draw_annotations_buffer (l_heap s ++ [img]) (length (l_heap s))
                img detections (l_history s)) as [Ha Hlen].
  { by rewrite list_lookup_middle. }
  destruct (draw_annotations _ _ _ _) as [[a h] th]. simpl in Ha, Hlen.
  intros [= <-]. simpl.
  destruct (h !! a) as [x|] eqn:E; [by exists x|].
  apply lookup_ge_None in E. lia.
Qed.

Lemma write_frames_length (out : VideoWriter Image) (x : Image) :
  length (writer_frames (write out (Some x)))
  = (length (writer_frames out) + if writer_opened out then 1 else 0)%nat.
Proof.
  unfold write. destruct (writer_opened out); simpl.
  - rewrite length_app. simpl. lia.
  - lia.
Qed.

Lemma process_frame_handled s img :
  is_Some (process_frame s img) <-> is_Some (model img).
Proof.
  unfold process_frame. destruct (model img) as [raw|].
  - destruct (update_with_detections _ _) as [tracker detections].
    destruct (draw_annotations _ _ _ _) as [[a h] th]. split; eauto.
  - done.
Qed.

Lemma process_frames_written s imgs :
  length (writer_frames (l_out (process_frames s imgs).2))
  = (length (writer_frames (l_out s))
     + if writer_opened (l_out s) then length (handled imgs) else 0)%nat.
Proof.
  revert s. induction imgs as [|img rest IH]; intros s.
  - simpl. destruct (writer_opened _); lia.
  - cbn [process_frames handled].
    destruct (process_frame s img) as [s1|] eqn:E.
    + assert (Hm : is_Some (model img)).
      { apply (process_frame_handled s). rewrite E. eauto. }
      destruct Hm as [raw ->].
      pose proof (process_frame_same_sink _ _ _ E) as (_ & _ & _ & Hopen).
      apply process_frame_writes in E as [x Hx].
      rewrite IH, Hopen, Hx, write_frames_length.
      destruct (writer_opened (l_out s)); simpl; lia.
    + assert (Hm : model img = None).
      { destruct (model img) eqn:Em; [|done].
        assert (H : is_Some (process_frame s img))
          by (apply process_frame_handled; rewrite Em; eauto).
        rewrite E in H. by destruct H. }
      rewrite Hm. simpl. destruct (writer_opened _); lia.
Qed.

Lemma process_frames_returns s imgs :
  (process_frames s imgs).1 = Returned tt <-> handled imgs = imgs.
Proof.
  revert s. induction imgs as [|img rest IH]; intros s; [done|].
  cbn [process_frames handled].
  destruct (process_frame s img) as [s1|] eqn:E.
  - assert (Hm : is_Some (model img)).
    { apply (process_frame_handled s). rewrite E. eauto. }
    destruct Hm as [raw ->]. rewrite IH. split; [congruence|].
    by intros [= ->].
  - assert (Hm : model img = None).
    { destruct (model img) eqn:Em; [|done].
      assert (H : is_Some (process_frame s img))
        by (apply process_frame_handled; rewrite Em; eauto).
      rewrite E in H. by destruct H. }
    rewrite Hm. done.
Qed.

(** The frame loop writes one frame for each frame it gets through, that
    is for each frame before the first one on which the detector raises,
    when the writer is open, and none when it is not; and it ends normally
    exactly when it gets through all the frames. *)
Theorem process_frames_writes_handled (s : Loop) (imgs : list Image) :
  length (writer_frames (l_out (process_frames s imgs).2))
  = (length (writer_frames (l_out s))
     + if writer_opened (l_out s) then length (handled imgs) else 0)%nat
  /\ ((process_frames s imgs).1 = Returned tt <-> handled imgs = imgs).
Proof. split; [apply process_frames_written | apply process_frames_returns]. Qed.

(** A frame for which the tracker returns no detection goes to the writer
    with the pixels it was read with, and leaves the statistics and the
    trajectory history as they were. *)
Theorem process_frame_nothing_tracked (s : Loop) (img : Image)
    (raw : list Detection) :
  model img = Some raw ->
  (update_with_detections (l_tracker s) (filter_target_classes raw)).2 = [] ->
  exists s',
    process_frame s img = Some s'
    /\ l_out s' = write (l_out s) (Some img)
    /\ l_stats s' = l_stats s
    /\ l_history s' = l_history s.
Proof.
  intros Hmodel Hnone. unfold process_frame. rewrite Hmodel.
  destruct (update_with_detections _ _) as [tracker detections].
  simpl in Hnone. subst detections.
  unfold draw_annotations, copy. rewrite list_lookup_middle by done.
  simpl. eexists. split; [done|]. simpl.
  rewrite length_app. simpl.
  rewrite (list_lookup_middle (l_heap s ++ [img]) [] img) by (rewrite length_app; simpl; lia).
  done.
Qed.

(** *** The loop of [main] over several videos *)

Lemma handled_all imgs :
  Forall (fun img => is_Some (model img)) imgs -> handled imgs = imgs.
Proof.
  induction 1 as [|img rest [raw Hraw] _ IH]; [done|].
  simpl. by rewrite Hraw, IH.
Qed.

Lemma process_video_unavailable self w video_path output_path :
  available video_path = false ->
  exists msgs,
    process_video self w video_path output_path
    = (Returned false, self, print w msgs).
Proof.
  unfold available, process_video.
  destruct (fs video_path) as [cap|]; [intros ->|]; simpl; eauto.
  rewrite print_print. eauto.
Qed.

Lemma process_video_available self w video_path output_path :
  available video_path = true ->
  (forall cap, fs video_path = Some cap ->
     Forall (fun img => is_Some (model img)) (frames cap)) ->
  exists self' w',
    process_video self w video_path (Some output_path)
    = (Returned true, self', w')
    /\ map writer_path (sinks w') = map writer_path (sinks w) ++ [output_path].
Proof.
  unfold available. intros Hav Hframes.
  destruct (fs video_path) as [cap|] eqn:Hfs; [|done].
  rewrite (process_video_opened _ _ _ _ _ Hfs Hav).
  specialize (Hframes cap eq_refl). apply handled_all in Hframes.
  set (out := mkVideoWriter _ _ _ _ _).
  set (s0 := mkLoop _ _ _ _ out).
  pose proof (proj2 (process_frames_returns s0 (frames cap)) Hframes) as Hret.
  destruct (process_frames s0 (frames cap)) as [r s] eqn:E.
  simpl in Hret. subst r. simpl.
  eexists _, _. split; [done|]. simpl.
  apply process_frames_same_sink in E as (Hpath & _).
  rewrite map_app. simpl. by rewrite Hpath.
Qed.


Lemma main_loop_unavailable_step tracker w video_path rest :
  source_unavailable video_path ->
  exists msgs,
    main_loop tracker w (video_path :: rest)
    = main_loop tracker (print w msgs) rest
    /\ Exists (fun m => failure_of m = Some video_path) msgs.
Proof.
  unfold source_unavailable. intros Hsrc. cbn [main_loop].
  destruct (fs video_path) as [cap|] eqn:Hfs.
  - unfold process_video. rewrite Hfs, Hsrc. simpl. rewrite !print_print.
    eexists. split; [done|]. apply Exists_cons_tl, Exists_cons_hd. done.
  - exists [MsgMissing video_path]. split; [done|]. by apply Exists_cons_hd.
Qed.

(** When none of the videos is available, the loop of [main] ends normally
    with the tracker as it was, no output created and no frame buffer
    allocated; all it does is print, for each video a failure message that
    names it, and the closing message last. *)
Theorem main_loop_nothing_available (tracker : ByteTrack) (w : World)
    (videos : list string) :
  Forall source_unavailable videos ->
  exists msgs,
    main_loop tracker w videos
    = (Returned tt, tracker, print w (msgs ++ [MsgAllDone]))
    /\ Forall (fun video_path =>
                 Exists (fun m => failure_of m = Some video_path) msgs) videos.
Proof.
  intros Hall. revert w.
  induction Hall as [|video_path rest Hsrc _ IH]; intros w.
  - exists []. split; [done|]. constructor.
  - destruct (main_loop_unavailable_step tracker w video_path rest Hsrc)
      as (msgs1 & -> & Hex).
    destruct (IH (print w msgs1)) as (msgs2 & -> & Hall2).
    exists (msgs1 ++ msgs2). rewrite print_print, <- app_assoc.
    split; [done|]. constructor.
    + apply Exists_app. by left.
    + eapply Forall_impl; [exact Hall2|].
      intros p Hp. apply Exists_app. by right.
Qed.

(** *** The default output name, on paths that contain [.mp4] *)

Lemma string_length_append (a b : string) :
  String.length (String.append a b) = (String.length a + String.length b)%nat.
Proof. induction a as [|c a IH]; simpl; [done|]. by rewrite IH. Qed.

Lemma replace_from_length_ge (old new : string) (k : nat) (s : string) :
  (String.length old < String.length new)%nat ->
  (String.length s <= String.length (replace_from old new k s) + k)%nat.
Proof.
  intros Hlen. revert k. induction s as [|c s IH]; intros k; [simpl; lia|].
  cbn [replace_from]. destruct k as [|k].
  - destruct (String.prefix old (String c s)).
    + rewrite string_length_append.
      specialize (IH (String.length old - 1)%nat). simpl. lia.
    + specialize (IH 0%nat). simpl. lia.
  - specialize (IH k). simpl. lia.
Qed.

Lemma replace_from_grows (old new s : string) :
  (String.length old < String.length new)%nat ->
  old <> EmptyString ->
  contains old s = true ->
  (String.length s < String.length (replace_from old new 0 s))%nat.
Proof.
  intros Hlen Hold. induction s as [|c s IH]; intros Hin.
  - cbn in Hin. destruct old; [done|]. cbn in Hin. done.
  - cbn [contains] in Hin. cbn [replace_from].
    destruct (String.prefix old (String c s)).
    + rewrite string_length_append.
      pose proof (replace_from_length_ge old new (String.length old - 1) s Hlen).
      destruct old as [|c0 old]; [done|]. simpl in *. lia.
    + simpl in Hin. specialize (IH Hin). simpl. lia.
Qed.

(** The default output name differs from the input path exactly when the
    path contains [.mp4] somewhere; a path without it is its own output
    name. *)
Theorem default_output_path_differs_iff (video_path : string) :
  default_output_path video_path <> video_path
  <-> contains ".mp4" video_path = true.
Proof.
  split.
  - intros Hne. destruct (contains ".mp4" video_path) eqn:E; [done|].
    exfalso. apply Hne. by apply default_output_path_absent.
  - intros Hin Heq.
    pose proof (replace_from_grows ".mp4" "_tracked.mp4" video_path) as Hg.
    unfold default_output_path, str_replace in Heq. rewrite Heq in Hg.
    specialize (Hg ltac:(simpl; lia) ltac:(done) Hin). lia.
Qed.

Lemma prefix_mp4_append (c : Ascii.ascii) (s : string) :
  String.prefix ".mp4" (String c s) = false ->
  String.prefix ".mp4" (String c (String.append s ".mp4")) = false.
Proof.
  cbn [String.prefix].
  destruct (Ascii.ascii_dec "."%char c) as [_|]; [|done].
  destruct s as [|a s]; [reflexivity|].
  change (String.append (String a s) ".mp4")
    with (String a (String.append s ".mp4")).
  cbn [String.prefix].
  destruct (Ascii.ascii_dec "m"%char a) as [_|]; [|done].
  destruct s as [|b s]; [reflexivity|].
  change (String.append (String b s) ".mp4")
    with (String b (String.append s ".mp4")).
  cbn [String.prefix].
  destruct (Ascii.ascii_dec "p"%char b) as [_|]; [|done].
  destruct s as [|d s]; [reflexivity|].
  change (String.append (String d s) ".mp4")
    with (String d (String.append s ".mp4")).
  cbn [String.prefix].
  destruct (Ascii.ascii_dec "4"%char d) as [_|]; [|done].
  by destruct s.
Qed.

(** For a path that ends in [.mp4] and has no other [.mp4] in it, the
    default output name is the path with [_tracked] put in before that
    extension. *)
Theorem default_output_path_stem (stem : string) :
  contains ".mp4" stem = false ->
  default_output_path (String.append stem ".mp4")
  = String.append stem "_tracked.mp4".
Proof.
  unfold default_output_path, str_replace.
  induction stem as [|c stem IH]; intros Habs; [reflexivity|].
  cbn [contains] in Habs. apply orb_false_iff in Habs as [Hhere Hrest].
  change (String.append (String c stem) ".mp4")
    with (String c (String.append stem ".mp4")).
  cbn [replace_from].
  rewrite (prefix_mp4_append c stem Hhere).
  by rewrite (IH Hrest).
Qed.

(** *** What [main] never prints *)

Lemma stat_lines_not_found stats :
  Forall (fun m => forall p, m <> MsgNotFound p) (stat_lines stats).
Proof.
  unfold stat_lines. apply Forall_map.
  apply Forall_forall. by intros [name count] _ p.
Qed.

Lemma process_video_console_existing self w video_path output_path :
  is_Some (fs video_path) ->
  exists msgs,
    console (process_video self w video_path output_path).2
    = console w ++ msgs
    /\ Forall (fun m => forall p, m <> MsgNotFound p) msgs.
Proof.
  intros [cap Hfs]. destruct (can_open cap) eqn:Hopen.
  - rewrite (process_video_opened _ _ _ _ _ Hfs Hopen).
    destruct (process_frames _ (frames cap)) as [r s]. simpl.
    destruct r; simpl; eexists; (split; [reflexivity|]).
    + repeat (apply Forall_cons; split; [done|]). apply stat_lines_not_found.
    + repeat (apply Forall_cons; split; [done|]). constructor.
  - unfold process_video. rewrite Hfs, Hopen. simpl.
    rewrite <- app_assoc. eexists. split; [reflexivity|].
    repeat (apply Forall_cons; split; [done|]). constructor.
Qed.

(** [main] looks a path up before it calls [process_video] on it, so the
    not-found message of [process_video] is never printed in a run of
    [main]: a missing file is reported by [main]'s own message, once. *)
Theorem main_loop_never_not_found (tracker : ByteTrack) (w : World)
    (videos : list string) :
  exists msgs,
    console (main_loop tracker w videos).2 = console w ++ msgs
    /\ Forall (fun m => forall p, m <> MsgNotFound p) msgs.
Proof.
  revert tracker w. induction videos as [|video_path rest IH]; intros tracker w.
  - simpl. eexists. split; [reflexivity|]. by repeat constructor.
  - cbn [main_loop]. destruct (fs video_path) as [cap|] eqn:Hfs.
    + destruct (process_video_console_existing tracker w video_path
                  (Some (main_output_path video_path)))
        as (msgs1 & Hc1 & Hall1); [by rewrite Hfs|].
      destruct (process_video _ _ _ _) as [[r t1] w1]. simpl in Hc1.
      destruct r as [success|].
      * destruct (IH t1 (if success then w1
                         else print w1 [MsgFailed video_path]))
          as (msgs2 & -> & Hall2).
        destruct success; simpl; rewrite Hc1, <- ?app_assoc;
          eexists; (split; [reflexivity|]);
          repeat (apply Forall_app; split); try done.
        by repeat constructor.
      * simpl. eauto.
    + destruct (IH tracker (print w [MsgMissing video_path]))
        as (msgs2 & -> & Hall2).
      simpl. rewrite <- app_assoc. eexists. split; [reflexivity|].
      apply Forall_cons. split; [done|]. exact Hall2.
Qed.

(** A call of [process_video] that returns [True] has created one output;
    if the output file could be opened it holds as many frames as the source
    delivered, and if it could not it holds none, the call returning [True]
    all the same. *)
Theorem process_video_writes_every_frame (self self' : ByteTrack)
    (w w' : World) (video_path : string) (output_path : option string)
    (cap : VideoFile Image) :
  fs video_path = Some cap ->
  can_open cap = true ->
  process_video self w video_path output_path = (Returned true, self', w') ->
  exists out,
    sinks w' = sinks w ++ [out]
    /\ writer_opened out = sink_opens (writer_path out)
    /\ length (writer_frames out)
       = if writer_opened out then length (frames cap) else 0%nat.
Proof.
  intros Hfs Hopen. rewrite (process_video_opened _ _ _ _ _ Hfs Hopen).
  set (out0 := mkVideoWriter _ _ _ _ _).
  set (s0 := mkLoop _ _ _ _ out0).
  pose proof (process_frames_written s0 (frames cap)) as Hlen.
  pose proof (process_frames_returns s0 (frames cap)) as Hret.
  destruct (process_frames s0 (frames cap)) as [r s] eqn:E.
  apply process_frames_same_sink in E as (Hpath & _ & _ & Hop).
  simpl in *. destruct r as [[]|]; [|done].
  intros [= <- <-]. exists (l_out s). simpl.
  split; [done|]. split; [by rewrite Hop, Hpath|].
  rewrite Hlen, Hop, (proj1 Hret eq_refl).
  by destruct (sink_opens _).
Qed.

End Pipeline.


(** *** Detections from outside the catalog *)

Lemma dict_get_None {V} (d : list (Z * V)) (k : Z) :
  k ∉ Dict.keys d -> Dict.get d k = None.
Proof.
  induction d as [|[k' v] d IH]; [done|].
  unfold Dict.keys. cbn [map fst Dict.get]. intros Hk.
  apply not_elem_of_cons in Hk as [Hne Hk].
  destruct (decide (k' = k)) as [->|_]; [done|]. by apply IH.
Qed.

Lemma with_outsiders_filter raw raw' :
  with_outsiders raw raw' ->
  filter_target_classes raw' = filter_target_classes raw.
Proof.
  rewrite !filter_target_classes_filter.
  induction 1 as [|d raw raw' _ IH|d raw raw' Hout _ IH]; [done| |].
  - rewrite !filter_cons. by rewrite IH.
  - by rewrite filter_cons_False.
Qed.

Section Outsiders.

Context {Image ByteTrack : Type}.
Variable cv2_rectangle : Image -> Point -> Point -> Color -> Z -> Image.
Variable cv2_getTextSize : string -> Z -> Z * Z.
Variable cv2_putText : Image -> string -> Point -> Color -> Z -> Image.
Variable cv2_polylines : Image -> list Point -> bool -> Color -> Z -> Image.
Variable format_label : string -> Z -> Q -> string.
Variable update_with_detections :
  ByteTrack -> list Detection -> ByteTrack * list TrackedDetection.
Variable fs : string -> option (VideoFile Image).
Variable sink_opens : string -> bool.

(** The two detectors compared. *)
Variables model model' : Image -> option (list Detection).

Local Abbreviation frame_with m :=
  (process_frame Image cv2_rectangle cv2_getTextSize cv2_putText cv2_polylines
     format_label m ByteTrack update_with_detections).
Local Abbreviation frames_with m :=
  (process_frames Image cv2_rectangle cv2_getTextSize cv2_putText cv2_polylines
     format_label m ByteTrack update_with_detections).
Local Abbreviation video_with m :=
  (process_video Image cv2_rectangle cv2_getTextSize cv2_putText cv2_polylines
     format_label m ByteTrack update_with_detections fs sink_opens).
Local Abbreviation draw :=
  (draw_detection Image cv2_rectangle cv2_getTextSize cv2_putText cv2_polylines
     format_label).

Lemma process_frame_outsiders s img :
  adds_outsiders model model' -> frame_with model' s img = frame_with model s img.
Proof.
  intros H. specialize (H img). unfold process_frame.
  destruct (model img) as [raw|], (model' img) as [raw'|]; try done.
  by rewrite (with_outsiders_filter _ _ H).
Qed.

Lemma process_frames_outsiders s imgs :
  adds_outsiders model model' ->
  frames_with model' s imgs = frames_with model s imgs.
Proof.
  intros H. revert s. induction imgs as [|img rest IH]; intros s; [done|].
  simpl. rewrite (process_frame_outsiders _ _ H).
  destruct (frame_with model s img); [apply IH|done].
Qed.

(** C7.  Let a detector report, in every frame, detections whose class id
    is not a key of the catalog, on top of what another detector reports.
    Then the frame loop ends in the same state with either detector (the
    same statistics, the same trajectory history, the same tracker state,
    the same frames written) and [process_video] gives the same result and
    prints the same summary: the extra detections add to no counter and no
    trajectory.  And should such a detection reach the annotator or the
    statistics loop all the same, the annotator leaves the frame and the
    history as they are and every counter stays as it is. *)
Theorem outsiders_never_counted :
  adds_outsiders model model' ->
  (forall s imgs, frames_with model' s imgs = frames_with model s imgs)
  /\ (forall self w video_path output_path,
        video_with model' self w video_path output_path
        = video_with model self w video_path output_path)
  /\ (forall (d : TrackedDetection) annotated_frame st stats,
        class_id d ∉ Dict.keys target_classes ->
        draw annotated_frame st d = st /\ update_stats stats [d] = stats).
Proof.
  intros H. split; [|split].
  - intros s imgs. by apply process_frames_outsiders.
  - intros self w video_path output_path. unfold process_video.
    destruct (fs video_path) as [cap|]; [|done].
    destruct (negb (can_open cap)); [done|].
    by rewrite process_frames_outsiders.
  - intros d a [h th] stats Hout. apply dict_get_None in Hout.
    unfold draw_detection, update_stats. cbn [map foldl]. by rewrite Hout.
Qed.

End Outsiders.

(** ** The scripts around the tracker *)

(** [check_video_files] of the launcher returns [False] exactly when
    neither of the two default videos exists; otherwise it returns the
    default videos that exist, in the order of the defaults, which is then a
    list that is not empty. *)
Theorem launcher_check_video_files (env : RunTracker.Env)
    (st : RunTracker.State) :
  match (RunTracker.check_video_files env st).1 with
  | None =>
      Forall (fun p => RunTracker.path_exists env p = false)
        RunTracker.video_files
  | Some files =>
      files <> []
      /\ files = filter (fun p => RunTracker.path_exists env p = true)
                   RunTracker.video_files
  end.
Proof.
  unfold RunTracker.check_video_files, RunTracker.video_files.
  cbn [foldl]. rewrite !filter_cons, filter_nil.
  destruct (RunTracker.path_exists env "video1.mp4") eqn:E1,
           (RunTracker.path_exists env "video2.mp4") eqn:E2; simpl;
    repeat constructor; done.
Qed.

(** A run of the launcher starts [video_tracker.py] at most once: exactly
    when the dependencies were installed and at least one default video
    exists, and then on the default videos that exist and on no other.
    Whether the conda environment is found or can be created changes nothing
    to that. *)
Theorem launcher_starts_tracker (env : RunTracker.Env) :
  filter (fun cmd => RunTracker.is_tracker_launch cmd = true)
    (RunTracker.commands (RunTracker.main env).2)
  = match RunTracker.pip_install env,
          filter (fun p => RunTracker.path_exists env p = true)
            RunTracker.video_files with
    | RunTracker.Completed _, (_ :: _) as files =>
        [[RunTracker.executable env; "video_tracker.py"; "--videos"] ++ files]
    | _, _ => []
    end.
Proof.
  unfold RunTracker.main, RunTracker.check_conda_env,
    RunTracker.create_conda_env, RunTracker.install_dependencies,
    RunTracker.check_video_files, RunTracker.run_tracker,
    RunTracker.video_files.
  cbn [foldl]. rewrite !filter_cons, filter_nil.
  destruct (RunTracker.path_exists env "video1.mp4") eqn:E1,
           (RunTracker.path_exists env "video2.mp4") eqn:E2;
    destruct (RunTracker.pip_install env) eqn:Epip;
    destruct (RunTracker.conda_env_list env) as [listing| |];
    try destruct (contains "supervisionTest" listing);
    destruct (RunTracker.conda_create env);
    simpl;
    try destruct (RunTracker.video_tracker env _);
    reflexivity.
Qed.

(** The launcher does not look at what [run_tracker] returns: when the
    tracker is started and fails, the launcher still ends normally, and the
    last things it prints are the failure message followed by the two lines
    that say where the outputs are. *)
Theorem launcher_ignores_tracker_failure (env : RunTracker.Env)
    (files : list string) :
  (exists out, RunTracker.pip_install env = RunTracker.Completed out) ->
  files = filter (fun p => RunTracker.path_exists env p = true)
            RunTracker.video_files ->
  files <> [] ->
  RunTracker.video_tracker env files = RunTracker.CalledProcessError ->
  exists before,
    (RunTracker.main env).1 = Returned tt
    /\ RunTracker.lines (RunTracker.main env).2
       = before ++ [RunTracker.Launching; RunTracker.TrackingFailed;
                    RunTracker.OutputLocation; RunTracker.OutputSuffix].
Proof.
  intros [out Hpip] -> Hsome Hfail. revert Hsome Hfail.
  unfold RunTracker.main, RunTracker.check_conda_env,
    RunTracker.create_conda_env, RunTracker.install_dependencies,
    RunTracker.check_video_files, RunTracker.run_tracker,
    RunTracker.video_files.
  rewrite Hpip. cbn [foldl]. rewrite !filter_cons, filter_nil.
  destruct (RunTracker.path_exists env "video1.mp4") eqn:E1,
           (RunTracker.path_exists env "video2.mp4") eqn:E2;
    destruct (RunTracker.conda_env_list env) as [listing| |];
    try destruct (contains "supervisionTest" listing);
    destruct (RunTracker.conda_create env);
    simpl; intros Hsome Hfail; try done; rewrite Hfail; simpl;
    match goal with
    | |- exists before, _ /\ ?l = _ =>
        let n := eval cbv in (length l - 4)%nat in
        exists (take n l); split; reflexivity
    end.
Qed.

(** The environment check and the launcher look for the same two default
    videos and agree on what they find: the launcher returns [False] when
    the check finds no file, and the list the check finds otherwise. *)
Theorem check_video_files_agree (env : RunTracker.Env) (st : RunTracker.State)
    (getsize : string -> Z) :
  (RunTracker.check_video_files env st).1
  = match (TestBasic.check_video_files (RunTracker.path_exists env) getsize).1
    with
    | [] => None
    | files => Some files
    end.
Proof.
  unfold RunTracker.check_video_files, TestBasic.check_video_files,
    RunTracker.video_files, TestBasic.video_files.
  cbn [foldl].
  destruct (RunTracker.path_exists env "video1.mp4"),
           (RunTracker.path_exists env "video2.mp4"); reflexivity.
Qed.

(** [check_python_version] compares the minor number with 8 whatever the
    major number is: it turns down every version whose minor number is
    below 8, the versions 4.0 to 4.7 for instance. *)
Theorem check_python_version_rejects_low_minor (major minor micro : Z) :
  minor < 8 ->
  TestBasic.check_python_version major minor micro
  = (false, [TestBasic.Version major minor micro; TestBasic.VersionTooLow]).
Proof.
  intros Hminor. unfold TestBasic.check_python_version.
  replace (8 <=? minor) with false by (symmetry; apply Z.leb_gt; lia).
  by rewrite andb_false_r.
Qed.

(** [check_packages] succeeds exactly when [cv2], [numpy] and [tqdm] can be
    imported; the optional packages change what is printed and never the
    result.  It always prints six lines, one per package. *)
Theorem check_packages_required_only (importable : string -> bool) :
  (TestBasic.check_packages importable).1
  = importable "cv2" && importable "numpy" && importable "tqdm"
  /\ length (TestBasic.check_packages importable).2 = 6%nat.
Proof.
  unfold TestBasic.check_packages, TestBasic.required_packages,
    TestBasic.optional_packages.
  cbn [foldl].
  destruct (importable "cv2"), (importable "numpy"), (importable "tqdm"),
           (importable "supervision"), (importable "ultralytics"),
           (importable "torch"); split; reflexivity.
Qed.

(** ** The properties at work in the concrete world *)

Local Abbreviation demo_draw_annotations :=
  (draw_annotations Demo.Image Demo.rectangle Demo.getTextSize Demo.putText
     Demo.polylines Demo.format_label).
Local Abbreviation demo_process_video :=
  (process_video Demo.Image Demo.rectangle Demo.getTextSize Demo.putText
     Demo.polylines Demo.format_label Demo.model Demo.ByteTrack
     Demo.update_with_detections Demo.fs Demo.sink_opens).
Local Abbreviation demo_main_loop :=
  (main_loop Demo.Image Demo.rectangle Demo.getTextSize Demo.putText
     Demo.polylines Demo.format_label Demo.model Demo.ByteTrack
     Demo.update_with_detections Demo.fs Demo.sink_opens
     Demo.main_output_path).
Local Abbreviation demo_world := (mkWorld Demo.Image [] [] []).

(** Forty records on track 3 leave the centers of frames 11 to 40. *)
Lemma record_keeps_last_30_witness :
  (∅ : gmap Z (list Point)) !! 3 = None
  /\ (0 < 40 <= length Demo.centers40)%nat
  /\ exists trajectory,
       record_all ∅ 3 (take 40 Demo.centers40) !! 3 = Some trajectory
       /\ (length trajectory <= 30)%nat
       /\ length trajectory = Nat.min 40 30
       /\ trajectory = drop (40 - Nat.min 40 30) (take 40 Demo.centers40).
Proof.
  split; [reflexivity|]. split; [vm_compute; lia|].
  apply (record_keeps_last_30 ∅ 3 Demo.centers40 40);
    [reflexivity | vm_compute; lia].
Defined.

(** A lone class-99 detection is filtered out. *)
Lemma filter_selects_catalog_classes_witness :
  Forall (fun d => class_id d ∉ Dict.keys target_classes) [Demo.outsider]
  /\ filter_target_classes [Demo.outsider] = [].
Proof.
  assert (H : Forall (fun d => class_id d ∉ Dict.keys target_classes)
                [Demo.outsider]).
  { repeat constructor. apply (bool_decide_unpack _). reflexivity. }
  split; [exact H|].
  exact (proj2 (proj2 (proj2 (proj2
           (filter_selects_catalog_classes [Demo.outsider])))) H).
Defined.

Lemma draw_annotations_no_detections_witness :
  [Demo.blank 1] !! 0%nat = Some (Demo.blank 1)
  /\ exists annotated_frame h',
       demo_draw_annotations [Demo.blank 1] 0%nat [] ∅
       = (annotated_frame, h', ∅)
       /\ h' !! annotated_frame = Some (Demo.blank 1)
       /\ h' !! 0%nat = Some (Demo.blank 1).
Proof.
  split; [reflexivity|].
  apply (draw_annotations_no_detections Demo.Image Demo.rectangle
           Demo.getTextSize Demo.putText Demo.polylines Demo.format_label
           [Demo.blank 1] 0%nat (Demo.blank 1) ∅).
  reflexivity.
Defined.

(** A person on track 7, seen once before: box, label and trail are drawn,
    and the caller's frame stays blank. *)
Lemma draw_annotations_keeps_input_witness :
  [Demo.blank 1] !! 0%nat = Some (Demo.blank 1)
  /\ let '(annotated_frame, h', _) :=
       demo_draw_annotations [Demo.blank 1] 0%nat
         [mkTracked Demo.person 7] {[ 7 := [(25, 55)] ]} in
     annotated_frame <> 0%nat
     /\ h' !! 0%nat = Some (Demo.blank 1)
     /\ forall i, (i < length [Demo.blank 1])%nat ->
                  h' !! i = [Demo.blank 1] !! i.
Proof.
  split; [reflexivity|].
  apply (draw_annotations_keeps_input Demo.Image Demo.rectangle
           Demo.getTextSize Demo.putText Demo.polylines Demo.format_label
           [Demo.blank 1] 0%nat (Demo.blank 1)
           [mkTracked Demo.person 7] {[ 7 := [(25, 55)] ]}).
  reflexivity.
Defined.

Example draw_annotations_draws_trail :
  (demo_draw_annotations [Demo.blank 1] 0%nat
     [mkTracked Demo.person 7] {[ 7 := [(25, 55)] ]}).1.2 !! 1%nat
  = Some (Demo.mkImage 1
            [Demo.Rectangle (10, 20) (50, 100) (0, 255, 0) 2;
             Demo.Rectangle (10, -2) (90, 20) (0, 255, 0) (-1);
             Demo.Text "person #" (10, 15) (255, 255, 255) 2;
             Demo.Polylines [(25, 55); (30, 60)] false (0, 255, 0) 2]).
Proof. vm_compute. reflexivity. Qed.

Lemma output_rate_and_size_witness :
  Demo.fs "video1.mp4" = Some Demo.video1
  /\ can_open Demo.video1 = true
  /\ exists r self' w' out,
       demo_process_video 0 demo_world "video1.mp4" None = (r, self', w')
       /\ sinks Demo.Image w' = sinks Demo.Image demo_world ++ [out]
       /\ writer_fps out = int (prop_fps Demo.video1)
       /\ writer_size out
          = (int (prop_width Demo.video1),
             int (prop_height Demo.video1))
       /\ forall fps width height : Z,
            (prop_fps Demo.video1 == inject_Z fps)%Q ->
            (prop_width Demo.video1 == inject_Z width)%Q ->
            (prop_height Demo.video1 == inject_Z height)%Q ->
            writer_fps out = fps /\ writer_size out = (width, height).
Proof.
  split; [reflexivity|]. split; [reflexivity|].
  apply (output_rate_and_size Demo.Image Demo.rectangle Demo.getTextSize
           Demo.putText Demo.polylines Demo.format_label Demo.model
           Demo.ByteTrack Demo.update_with_detections Demo.fs Demo.sink_opens
           0 demo_world "video1.mp4" None Demo.video1);
    reflexivity.
Defined.

(** A source at 12.5 frames per second is written at 12. *)
Lemma output_rate_truncated :
  exists cap out self' w',
    Demo.fs "cctv.mp4" = Some cap
    /\ can_open cap = true
    /\ demo_process_video 0 demo_world "cctv.mp4" None
       = (Returned true, self', w')
    /\ sinks Demo.Image w' = [out]
    /\ prop_fps cap = 25 # 2
    /\ writer_fps out = 12
    /\ ~ (inject_Z (writer_fps out) == prop_fps cap)%Q.
Proof.
  eexists _, _, _, _.
  split; [reflexivity|]. split; [reflexivity|].
  split; [vm_compute; reflexivity|].
  split; [reflexivity|]. split; [reflexivity|]. split; [reflexivity|].
  vm_compute. discriminate.
Qed.

Lemma unavailable_source_reported_and_skipped_witness :
  source_unavailable Demo.Image Demo.fs "nothing.mp4"
  /\ (forall output_path, exists msgs,
        demo_process_video 0 demo_world "nothing.mp4" output_path
        = (Returned false, 0, print Demo.Image demo_world msgs)
        /\ Exists (fun m => failure_of m = Some "nothing.mp4") msgs)
  /\ exists msgs,
       demo_main_loop 0 demo_world ["nothing.mp4"; "video1.mp4"]
       = demo_main_loop 0 (print Demo.Image demo_world msgs) ["video1.mp4"]
       /\ Exists (fun m => failure_of m = Some "nothing.mp4") msgs.
Proof.
  split; [exact I|].
  apply (unavailable_source_reported_and_skipped Demo.Image Demo.rectangle
           Demo.getTextSize Demo.putText Demo.polylines Demo.format_label
           Demo.model Demo.ByteTrack Demo.update_with_detections Demo.fs
           Demo.sink_opens Demo.main_output_path
           0 demo_world "nothing.mp4" ["video1.mp4"]).
  exact I.
Defined.

(** A file that exists and cannot be opened is reported and skipped too,
    and the video after it is processed. *)
Example locked_source_skipped :
  console Demo.Image
    (demo_main_loop 0 demo_world ["locked.mp4"; "video1.mp4"]).2
  = [MsgStart "locked.mp4"; MsgCannotOpen "locked.mp4"; MsgFailed "locked.mp4";
     MsgStart "video1.mp4"; MsgInfo 640 480 25 2;
     MsgDone "output/video1_tracked.mp4"; MsgStatsHeader; MsgStat "person" 2;
     MsgAllDone].
Proof. vm_compute. reflexivity. Qed.

(** The detector raises on the first frame of [faulty.mp4]: the exception
    leaves [main], no failure message is printed, and [video1.mp4], next in
    the list, is never started.  The sink of [video2.mp4] cannot be opened:
    [process_video] returns [True] and reports the video as done, no failure
    message is printed and no frame is written. *)
Lemma failures_not_all_caught :
  (exists tracker w,
     demo_main_loop 0 demo_world ["faulty.mp4"; "video1.mp4"]
     = (Raised, tracker, w)
     /\ Forall (fun m => failure_of m = None) (console Demo.Image w)
     /\ MsgStart "video1.mp4" ∉ console Demo.Image w)
  /\ (exists tracker w out,
        demo_process_video 0 demo_world "video2.mp4"
          (Some (Demo.main_output_path "video2.mp4"))
        = (Returned true, tracker, w)
        /\ Forall (fun m => failure_of m = None) (console Demo.Image w)
        /\ MsgDone (Demo.main_output_path "video2.mp4") ∈ console Demo.Image w
        /\ sinks Demo.Image w = [out]
        /\ writer_opened out = false
        /\ writer_frames out = []).
Proof.
  split.
  - eexists _, _. split; [vm_compute; reflexivity|]. simpl. split.
    + repeat constructor.
    + intros H. repeat (apply elem_of_cons in H as [H|H]; [discriminate|]).
      by apply elem_of_nil in H.
  - eexists _, _, _. split; [vm_compute; reflexivity|]. simpl. split.
    + repeat constructor.
    + split; [|done]. apply list_elem_of_In. simpl. tauto.
Qed.

Local Abbreviation demo_process_frames :=
  (process_frames Demo.Image Demo.rectangle Demo.getTextSize Demo.putText
     Demo.polylines Demo.format_label Demo.model Demo.ByteTrack
     Demo.update_with_detections).
Local Abbreviation demo_tracker_after :=
  (tracker_after Demo.Image Demo.model Demo.ByteTrack
     Demo.update_with_detections).
Local Abbreviation demo_after_video1 :=
  (demo_process_video 0 demo_world "video1.mp4" None).2.

(** [video1.mp4] then [video2.mp4] on one instance. *)
Lemma tracker_persists_statistics_reset_witness :
  Demo.fs "video1.mp4" = Some Demo.video1
  /\ can_open Demo.video1 = true
  /\ Demo.fs "video2.mp4" = Some Demo.video2
  /\ can_open Demo.video2 = true
  /\ demo_process_video 0 demo_world "video1.mp4" None
     = (Returned true, 2, demo_after_video1)
  /\ let output_path := default_output_path "video2.mp4" in
     let out :=
       mkVideoWriter output_path (int (prop_fps Demo.video2))
         (int (prop_width Demo.video2), int (prop_height Demo.video2))
         (Demo.sink_opens output_path) [] in
     let fresh :=
       mkLoop Demo.Image Demo.ByteTrack 2 (heap Demo.Image demo_after_video1)
         [("person", 0); ("car", 0); ("motorcycle", 0); ("bus", 0);
          ("truck", 0)]
         ∅ out in
     let r := (demo_process_frames fresh (frames Demo.video2)).1 in
     let s := (demo_process_frames fresh (frames Demo.video2)).2 in
     let head :=
       [MsgStart "video2.mp4";
        MsgInfo (int (prop_width Demo.video2)) (int (prop_height Demo.video2))
          (int (prop_fps Demo.video2)) (int (prop_frame_count Demo.video2))] in
     let summary :=
       map (fun '(class_name, count) => MsgStat class_name count)
         (filter (fun '(_, count) => 0 < count)
            (l_stats Demo.Image Demo.ByteTrack s)) in
     2 = demo_tracker_after 0 (frames Demo.video1)
     /\ zero_stats
        = [("person", 0); ("car", 0); ("motorcycle", 0); ("bus", 0);
           ("truck", 0)]
     /\ demo_process_video 2 demo_after_video1 "video2.mp4" None
        = match r with
          | Returned _ =>
              (Returned true, l_tracker Demo.Image Demo.ByteTrack s,
               mkWorld Demo.Image
                 (console Demo.Image demo_after_video1 ++ head
                    ++ [MsgDone output_path; MsgStatsHeader] ++ summary)
                 (l_heap Demo.Image Demo.ByteTrack s)
                 (sinks Demo.Image demo_after_video1
                    ++ [l_out Demo.Image Demo.ByteTrack s]))
          | Raised =>
              (Raised, l_tracker Demo.Image Demo.ByteTrack s,
               mkWorld Demo.Image
                 (console Demo.Image demo_after_video1 ++ head)
                 (l_heap Demo.Image Demo.ByteTrack s)
                 (sinks Demo.Image demo_after_video1
                    ++ [l_out Demo.Image Demo.ByteTrack s]))
          end
     /\ l_tracker Demo.Image Demo.ByteTrack s
        = demo_tracker_after 0 (frames Demo.video1 ++ frames Demo.video2).
Proof.
  split; [reflexivity|]. split; [reflexivity|].
  split; [reflexivity|]. split; [reflexivity|].
  split; [vm_compute; reflexivity|].
  apply (tracker_persists_statistics_reset Demo.Image Demo.rectangle
           Demo.getTextSize Demo.putText Demo.polylines Demo.format_label
           Demo.model Demo.ByteTrack Demo.update_with_detections Demo.fs
           Demo.sink_opens 0 2 demo_world demo_after_video1
           "video1.mp4" "video2.mp4" None None Demo.video1 Demo.video2);
    reflexivity.
Defined.

(** The second video starts from the identities the first one ended on, and
    its summary counts its own three detections only. *)
Example second_video_continues_identities :
  (demo_process_video 2 demo_after_video1 "video2.mp4" None).1
  = (Returned true, 5)
  /\ console Demo.Image
       (demo_process_video 2 demo_after_video1 "video2.mp4" None).2
     = console Demo.Image demo_after_video1
       ++ [MsgStart "video2.mp4"; MsgInfo 640 480 30 3;
           MsgDone "video2_tracked.mp4"; MsgStatsHeader; MsgStat "person" 3].
Proof. split; vm_compute; reflexivity. Qed.

Lemma outsiders_never_counted_witness :
  adds_outsiders Demo.model Demo.model_with_outsider
  /\ (forall s imgs,
        process_frames Demo.Image Demo.rectangle Demo.getTextSize
          Demo.putText Demo.polylines Demo.format_label
          Demo.model_with_outsider Demo.ByteTrack
          Demo.update_with_detections s imgs
        = demo_process_frames s imgs)
  /\ (forall self w video_path output_path,
        process_video Demo.Image Demo.rectangle Demo.getTextSize
          Demo.putText Demo.polylines Demo.format_label
          Demo.model_with_outsider Demo.ByteTrack
          Demo.update_with_detections Demo.fs Demo.sink_opens
          self w video_path output_path
        = demo_process_video self w video_path output_path)
  /\ (forall (d : TrackedDetection) annotated_frame st stats,
        class_id d ∉ Dict.keys target_classes ->
        draw_detection Demo.Image Demo.rectangle Demo.getTextSize
          Demo.putText Demo.polylines Demo.format_label annotated_frame st d
        = st
        /\ update_stats stats [d] = stats).
Proof.
  assert (H : adds_outsiders Demo.model Demo.model_with_outsider).
  { intros img. unfold Demo.model_with_outsider, Demo.model.
    destruct (Demo.frame_no img =? 13); [exact I|].
    apply wo_extra.
    - apply (bool_decide_unpack _). reflexivity.
    - apply wo_keep, wo_nil. }
  split; [exact H|].
  exact (outsiders_never_counted Demo.rectangle Demo.getTextSize Demo.putText
           Demo.polylines Demo.format_label Demo.update_with_detections
           Demo.fs Demo.sink_opens Demo.model Demo.model_with_outsider H).
Defined.

(** With the class-99 object in every frame of [video1.mp4], the summary
    still counts the two persons and nothing else. *)
Example outsider_in_every_frame :
  console Demo.Image
    (process_video Demo.Image Demo.rectangle Demo.getTextSize
       Demo.putText Demo.polylines Demo.format_label
       Demo.model_with_outsider Demo.ByteTrack
       Demo.update_with_detections Demo.fs Demo.sink_opens
       0 demo_world "video1.mp4" None).2
  = [MsgStart "video1.mp4"; MsgInfo 640 480 25 2;
     MsgDone "video1_tracked.mp4"; MsgStatsHeader; MsgStat "person" 2].
Proof. vm_compute. reflexivity. Qed.

(** *** Further properties at work *)

Lemma draw_annotations_keeps_trails_bounded_witness :
  trails_bounded {[ 7 := [(25, 55)] ]}
  /\ trails_bounded
       (demo_draw_annotations [Demo.blank 1] 0%nat
          [mkTracked Demo.person 7] {[ 7 := [(25, 55)] ]}).2.
Proof.
  assert (H : trails_bounded {[ 7 := [(25, 55)] ]}).
  { intros k l Hk. apply lookup_singleton_Some in Hk as [_ <-]. simpl. lia. }
  split; [exact H|].
  exact (draw_annotations_keeps_trails_bounded Demo.Image Demo.rectangle
           Demo.getTextSize Demo.putText Demo.polylines Demo.format_label
           [Demo.blank 1] 0%nat [mkTracked Demo.person 7] _ H).
Defined.

Lemma draw_annotations_other_trails_witness :
  (8 ∉ map tracker_id [mkTracked Demo.person 7])
  /\ (demo_draw_annotations [Demo.blank 1] 0%nat
        [mkTracked Demo.person 7] {[ 8 := [(1, 1)] ]}).2 !! 8
     = ({[ 8 := [(1, 1)] ]} : gmap Z (list Point)) !! 8.
Proof.
  assert (H : 8 ∉ map tracker_id [mkTracked Demo.person 7]).
  { apply (bool_decide_unpack _). reflexivity. }
  split; [exact H|].
  exact (draw_annotations_other_trails Demo.Image Demo.rectangle
           Demo.getTextSize Demo.putText Demo.polylines Demo.format_label
           [Demo.blank 1] 0%nat [mkTracked Demo.person 7]
           {[ 8 := [(1, 1)] ]} 8 H).
Defined.

Local Abbreviation demo_loop :=
  (mkLoop Demo.Image Demo.ByteTrack 0 [] zero_stats ∅
     (Demo.writer "video1_tracked.mp4")).

Lemma process_frames_keeps_trails_bounded_witness :
  trails_bounded (l_history Demo.Image Demo.ByteTrack demo_loop)
  /\ trails_bounded
       (l_history Demo.Image Demo.ByteTrack
          (demo_process_frames demo_loop (frames Demo.video1)).2).
Proof.
  assert (H : trails_bounded (l_history Demo.Image Demo.ByteTrack demo_loop)).
  { intros k l Hk. simpl in Hk. by rewrite lookup_empty in Hk. }
  split; [exact H|].
  exact (process_frames_keeps_trails_bounded Demo.Image Demo.rectangle
           Demo.getTextSize Demo.putText Demo.polylines Demo.format_label
           Demo.model Demo.ByteTrack Demo.update_with_detections
           demo_loop (frames Demo.video1) H).
Defined.

Lemma update_stats_counts_class_witness :
  Dict.get target_classes 0 = Some "person"
  /\ Dict.get
       (update_stats zero_stats
          [mkTracked Demo.person 1; mkTracked Demo.outsider 2;
           mkTracked Demo.person 3])
       "person"
     = Some (Z.of_nat (length
               (filter (fun d : TrackedDetection => class_id d = 0)
                  [mkTracked Demo.person 1; mkTracked Demo.outsider 2;
                   mkTracked Demo.person 3]))).
Proof.
  split; [reflexivity|].
  apply (update_stats_counts_class
           [mkTracked Demo.person 1; mkTracked Demo.outsider 2;
            mkTracked Demo.person 3] 0 "person").
  reflexivity.
Defined.

Lemma process_frame_nothing_tracked_witness :
  Demo.model_outsider_only (Demo.blank 1) = Some [Demo.outsider]
  /\ (Demo.update_with_detections 0
        (filter_target_classes [Demo.outsider])).2 = []
  /\ exists s',
       process_frame Demo.Image Demo.rectangle Demo.getTextSize Demo.putText
         Demo.polylines Demo.format_label Demo.model_outsider_only
         Demo.ByteTrack Demo.update_with_detections demo_loop (Demo.blank 1)
       = Some s'
       /\ l_out Demo.Image Demo.ByteTrack s'
          = write (l_out Demo.Image Demo.ByteTrack demo_loop)
              (Some (Demo.blank 1))
       /\ l_stats Demo.Image Demo.ByteTrack s'
          = l_stats Demo.Image Demo.ByteTrack demo_loop
       /\ l_history Demo.Image Demo.ByteTrack s'
          = l_history Demo.Image Demo.ByteTrack demo_loop.
Proof.
  split; [reflexivity|]. split; [reflexivity|].
  apply (process_frame_nothing_tracked Demo.Image Demo.rectangle
           Demo.getTextSize Demo.putText Demo.polylines Demo.format_label
           Demo.model_outsider_only Demo.ByteTrack Demo.update_with_detections
           demo_loop (Demo.blank 1) [Demo.outsider]); reflexivity.
Defined.

Local Abbreviation demo_available :=
  (available Demo.Image Demo.fs).


Example main_loop_outputs_paths :
  map Demo.main_output_path
    (filter (fun p => demo_available p = true)
       ["locked.mp4"; "video1.mp4"; "nothing.mp4"; "video2.mp4"])
  = ["output/video1_tracked.mp4"; "output/video2_tracked.mp4"].
Proof. reflexivity. Qed.

Lemma main_loop_nothing_available_witness :
  Forall (source_unavailable Demo.Image Demo.fs) ["nothing.mp4"; "locked.mp4"]
  /\ exists msgs,
       demo_main_loop 5 demo_world ["nothing.mp4"; "locked.mp4"]
       = (Returned tt, 5, print Demo.Image demo_world (msgs ++ [MsgAllDone]))
       /\ Forall (fun video_path =>
                    Exists (fun m => failure_of m = Some video_path) msgs)
            ["nothing.mp4"; "locked.mp4"].
Proof.
  assert (H : Forall (source_unavailable Demo.Image Demo.fs)
                ["nothing.mp4"; "locked.mp4"]).
  { repeat constructor. }
  split; [exact H|].
  exact (main_loop_nothing_available Demo.Image Demo.rectangle Demo.getTextSize
           Demo.putText Demo.polylines Demo.format_label Demo.model
           Demo.ByteTrack Demo.update_with_detections Demo.fs Demo.sink_opens
           Demo.main_output_path 5 demo_world _ H).
Defined.

Lemma default_output_path_stem_witness :
  contains ".mp4" "clips/video1" = false
  /\ default_output_path (String.append "clips/video1" ".mp4")
     = String.append "clips/video1" "_tracked.mp4".
Proof.
  split; [reflexivity|].
  apply (default_output_path_stem "clips/video1"). reflexivity.
Defined.

(** Every [.mp4] in the path is replaced, not only the extension. *)
Example default_output_path_directory :
  default_output_path "clips.mp4/video1.mp4"
  = "clips_tracked.mp4/video1_tracked.mp4".
Proof. reflexivity. Qed.

Lemma check_python_version_rejects_low_minor_witness :
  0 < 8
  /\ TestBasic.check_python_version 4 0 0
     = (false, [TestBasic.Version 4 0 0; TestBasic.VersionTooLow]).
Proof.
  split; [lia|].
  apply (check_python_version_rejects_low_minor 4 0 0). lia.
Defined.

Local Abbreviation demo_after_video2 :=
  (demo_process_video 0 demo_world "video2.mp4"
     (Some "output/video2_tracked.mp4")).2.

(** The output of [video2.mp4] cannot be opened: the call returns [True]
    and the output holds no frame. *)
Lemma process_video_writes_every_frame_witness :
  Demo.fs "video2.mp4" = Some Demo.video2
  /\ can_open Demo.video2 = true
  /\ demo_process_video 0 demo_world "video2.mp4"
       (Some "output/video2_tracked.mp4")
     = (Returned true, 3, demo_after_video2)
  /\ exists out,
       sinks Demo.Image demo_after_video2
       = sinks Demo.Image demo_world ++ [out]
       /\ writer_opened out = Demo.sink_opens (writer_path out)
       /\ length (writer_frames out)
          = if writer_opened out then length (frames Demo.video2) else 0%nat.
Proof.
  split; [reflexivity|]. split; [reflexivity|].
  split; [vm_compute; reflexivity|].
  apply (process_video_writes_every_frame Demo.Image Demo.rectangle
           Demo.getTextSize Demo.putText Demo.polylines Demo.format_label
           Demo.model Demo.ByteTrack Demo.update_with_detections Demo.fs
           Demo.sink_opens 0 3 demo_world demo_after_video2 "video2.mp4"
           (Some "output/video2_tracked.mp4") Demo.video2);
    [reflexivity | reflexivity | vm_compute; reflexivity].
Defined.

Lemma launcher_ignores_tracker_failure_witness :
  (exists out,
     RunTracker.pip_install Demo.launcher_env = RunTracker.Completed out)
  /\ ["video1.mp4"]
     = filter (fun p => RunTracker.path_exists Demo.launcher_env p = true)
         RunTracker.video_files
  /\ ["video1.mp4"] <> []
  /\ RunTracker.video_tracker Demo.launcher_env ["video1.mp4"]
     = RunTracker.CalledProcessError
  /\ exists before,
       (RunTracker.main Demo.launcher_env).1 = Returned tt
       /\ RunTracker.lines (RunTracker.main Demo.launcher_env).2
          = before ++ [RunTracker.Launching; RunTracker.TrackingFailed;
                       RunTracker.OutputLocation; RunTracker.OutputSuffix].
Proof.
  assert (H1 : exists out,
            RunTracker.pip_install Demo.launcher_env = RunTracker.Completed out)
    by (by exists "").
  split; [exact H1|]. split; [reflexivity|]. split; [discriminate|].
  split; [reflexivity|].
  apply (launcher_ignores_tracker_failure Demo.launcher_env ["video1.mp4"] H1);
    [reflexivity | discriminate | reflexivity].
Defined.

Example launcher_run :
  RunTracker.main Demo.launcher_env
  = (Returned tt,
     RunTracker.mkState
       [RunTracker.Banner; RunTracker.Rule; RunTracker.CondaUnavailable;
        RunTracker.TryCreate; RunTracker.CreatingEnv;
        RunTracker.EnvCreateFailed; RunTracker.ContinueCurrent;
        RunTracker.Installing; RunTracker.Installed;
        RunTracker.VideoFound "video1.mp4";
        RunTracker.VideoMissing "video2.mp4";
        RunTracker.Launching; RunTracker.TrackingFailed;
        RunTracker.OutputLocation; RunTracker.OutputSuffix]
       [["conda"; "env"; "list"];
        ["conda"; "create"; "-n"; "supervisionTest"; "python=3.9"; "-y"];
        ["python3"; "-m"; "pip"; "install"; "-r"; "requirements.txt"];
        ["python3"; "video_tracker.py"; "--videos"; "video1.mp4"]]).
Proof. reflexivity. Qed.

(** What [main] names the outputs, whatever the extension and the
    directory of the input. *)
Example tracked_output_paths :
  map (tracked_output_path "output")
    ["video1.mp4"; "video.avi"; "clips/video1.mp4"; "/data/in/a.tar.gz";
     "clips.mp4/raw"; ".hidden"; "./video2.mp4"]
  = ["output/video1_tracked.mp4"; "output/video_tracked.mp4";
     "output/video1_tracked.mp4"; "output/a.tar_tracked.mp4";
     "output/raw_tracked.mp4"; "output/.hidden_tracked.mp4";
     "output/video2_tracked.mp4"].
Proof. reflexivity. Qed.
